(** * A shallow embedding of the software rasteriser core

    The development follows the TypeScript sources of the engine:
    [color4.ts], [helper.ts], [point2d.ts], [triangle2d.ts], [clipping.ts],
    [clip.ts], [pixel.ts], [blitter.ts], [line.ts] and [flat-scanline.ts].

    Modelling choices.
    - A JavaScript [number] is the type [number] below: the three special
      values NaN, -Infinity and +Infinity, and the finite values as exact
      rationals.  Special values follow the IEEE 754 rules the sources rely
      on (comparisons with NaN are false, Infinity - Infinity is NaN, ...).
      Finite arithmetic is exact: rounding, overflow to Infinity and the
      sign of zero are not modelled.
    - Colour channels and packed colours are integers ([Z]); the 32-bit
      operators [<<], [>>], [&] and [|] are written with their ToInt32
      wrap-around.
    - A [Uint32Array] is a list of cells; a store at an index that is not an
      integer inside the array is ignored, as typed arrays do.
    - Mutation is explicit state passing.  The loops of [line.ts] and
      [flat-scanline.ts] take fuel and return [None] when it runs out; a
      call returns when some amount of fuel, and then any larger amount,
      gives [Some] backbuffer. *)

From Stdlib Require Import ZArith QArith Qround Qabs Lia Lqa Bool List.
From stdpp Require Import base list.
Import ListNotations.

Local Open Scope Z_scope.

(** ** JavaScript numbers *)

Inductive number : Type :=
| NaN
| NegInf
| PosInf
| Fin (q : Q).

Module Num.

Definition of_Z (z : Z) : number := Fin (inject_Z z).

(** Sign of a number: -1, 0 or 1 (0 for NaN). *)
Definition sgn (x : number) : Z :=
  match x with
  | NaN => 0
  | NegInf => -1
  | PosInf => 1
  | Fin q => Z.sgn (Qnum q)
  end.

Definition of_sign (s : Z) : number :=
  match s with
  | Z0 => NaN
  | Zpos _ => PosInf
  | Zneg _ => NegInf
  end.

(** Unary minus. *)
Definition neg (x : number) : number :=
  match x with
  | NaN => NaN
  | NegInf => PosInf
  | PosInf => NegInf
  | Fin q => Fin (Qred (- q))
  end.

(** [x + y] *)
Definition add (x y : number) : number :=
  match x, y with
  | NaN, _ | _, NaN => NaN
  | PosInf, NegInf | NegInf, PosInf => NaN
  | PosInf, _ | _, PosInf => PosInf
  | NegInf, _ | _, NegInf => NegInf
  | Fin a, Fin b => Fin (Qred (a + b))
  end.

(** [x - y] *)
Definition sub (x y : number) : number := add x (neg y).

(** [x * y] *)
Definition mul (x y : number) : number :=
  match x, y with
  | NaN, _ | _, NaN => NaN
  | Fin a, Fin b => Fin (Qred (a * b))
  | _, _ => of_sign (sgn x * sgn y)
  end.

(** [x / y]; the only zero of the model counts as +0. *)
Definition div (x y : number) : number :=
  match x, y with
  | NaN, _ | _, NaN => NaN
  | Fin a, Fin b =>
      if Qeq_bool b 0 then of_sign (Z.sgn (Qnum a)) else Fin (Qred (a / b))
  | Fin _, _ => Fin 0
  | _, Fin b => of_sign (sgn x * (if (Qnum b <? 0)%Z then -1 else 1))
  | _, _ => NaN
  end.

(** [x === y] on numbers *)
Definition eqb (x y : number) : bool :=
  match x, y with
  | NaN, _ | _, NaN => false
  | NegInf, NegInf | PosInf, PosInf => true
  | Fin a, Fin b => Qeq_bool a b
  | _, _ => false
  end.

(** [x <= y] *)
Definition leb (x y : number) : bool :=
  match x, y with
  | NaN, _ | _, NaN => false
  | NegInf, _ | _, PosInf => true
  | Fin a, Fin b => Qle_bool a b
  | _, _ => false
  end.

(** [x < y] *)
Definition ltb (x y : number) : bool :=
  match x, y with
  | NaN, _ | _, NaN => false
  | PosInf, _ | _, NegInf => false
  | Fin a, Fin b => negb (Qle_bool b a)
  | _, _ => true
  end.

(** [x >= y] and [x > y] *)
Definition geb (x y : number) : bool := leb y x.
Definition gtb (x y : number) : bool := ltb y x.

(** [Math.floor], [Math.ceil], [Math.abs] *)
Definition floor (x : number) : number :=
  match x with
  | Fin q => of_Z (Qfloor q)
  | _ => x
  end.

Definition ceil (x : number) : number :=
  match x with
  | Fin q => of_Z (Qceiling q)
  | _ => x
  end.

Definition abs (x : number) : number :=
  match x with
  | NaN => NaN
  | NegInf | PosInf => PosInf
  | Fin q => Fin (Qred (Qabs q))
  end.

(** [Math.max] and [Math.min]: NaN if either argument is NaN. *)
Definition max (x y : number) : number :=
  match x, y with
  | NaN, _ | _, NaN => NaN
  | _, _ => if leb x y then y else x
  end.

Definition min (x y : number) : number :=
  match x, y with
  | NaN, _ | _, NaN => NaN
  | _, _ => if leb x y then x else y
  end.

(** The order of the extended rationals, as propositions; NaN is
    comparable to nothing.  The boolean tests above decide them. *)
Definition le (x y : number) : Prop :=
  match x, y with
  | NaN, _ | _, NaN => False
  | NegInf, _ | _, PosInf => True
  | Fin a, Fin b => (a <= b)%Q
  | _, _ => False
  end.

Definition lt (x y : number) : Prop :=
  match x, y with
  | NaN, _ | _, NaN => False
  | PosInf, _ | _, NegInf => False
  | Fin a, Fin b => (a < b)%Q
  | _, _ => True
  end.

End Num.

Declare Scope num_scope.
Delimit Scope num_scope with num.
Bind Scope num_scope with number.
Infix "+" := Num.add : num_scope.
Infix "-" := Num.sub : num_scope.
Infix "*" := Num.mul : num_scope.
Infix "/" := Num.div : num_scope.
Notation "- x" := (Num.neg x) : num_scope.
Infix "===" := Num.eqb (at level 70, no associativity) : num_scope.
Infix "<?" := Num.ltb : num_scope.
Infix "<=?" := Num.leb : num_scope.
Infix ">?" := Num.gtb : num_scope.
Infix ">=?" := Num.geb : num_scope.
Notation "# z" := (Num.of_Z z) (at level 5, z at level 0, format "# z") : num_scope.

(** ** 32-bit integer operators *)

(** ToInt32 and ToUint32 of an integer. *)
Definition ToInt32 (z : Z) : Z := (z + 2 ^ 31) mod 2 ^ 32 - 2 ^ 31.
Definition ToUint32 (z : Z) : Z := z mod 2 ^ 32.

(** [x << n], [x >> n], [x & y], [x | y] *)
Definition shl (x n : Z) : Z := ToInt32 (Z.shiftl (ToInt32 x) (ToUint32 n mod 32)).
Definition sar (x n : Z) : Z := Z.shiftr (ToInt32 x) (ToUint32 n mod 32).
Definition band (x y : Z) : Z := Z.land (ToInt32 x) (ToInt32 y).
Definition bor (x y : Z) : Z := Z.lor (ToInt32 x) (ToInt32 y).

(** ** helper.ts *)

(** [clamp(value, min, max)] is [Math.min(max, Math.max(min, value))]. *)
Definition clamp (value min max : Z) : Z := Z.min max (Z.max min value).

(** ** color4.ts *)

Record Color4 : Type := mkColor4 {
  alpha : Z;
  red : Z;
  green : Z;
  blue : Z;
  cache : option Z;
  caching : bool
}.

Module Color.

(** The constructor: channels clamped to 0..255, empty cache. *)
Definition new (a r g b : Z) (caching : bool) : Color4 :=
  {| alpha := clamp a 0 255;
     red := clamp r 0 255;
     green := clamp g 0 255;
     blue := clamp b 0 255;
     cache := None;
     caching := caching |}.

(** [new Color4()]: the defaults alpha = 255, red = green = blue = 0,
    caching = true. *)
Definition default : Color4 := new 255 0 0 0 true.

Definition fromAABBGGRR (this : Color4) (color : Z) : Color4 :=
  {| alpha := band (sar color 24) 255;
     red := band (sar color 0) 255;
     green := band (sar color 8) 255;
     blue := band (sar color 16) 255;
     cache := Some color;
     caching := caching this |}.

Definition fromARRGGBB (this : Color4) (color : Z) : Color4 :=
  {| alpha := band (sar color 24) 255;
     red := band (sar color 16) 255;
     green := band (sar color 8) 255;
     blue := band (sar color 0) 255;
     cache := Some color;
     caching := caching this |}.

Definition getAABBGGRR (this : Color4) : Z :=
  bor (bor (bor (shl (alpha this) 24) (shl (red this) 0))
           (shl (green this) 8))
      (shl (blue this) 16).

Definition getAARRGGBB (this : Color4) : Z :=
  bor (bor (bor (shl (alpha this) 24) (shl (red this) 16))
           (shl (green this) 8))
      (shl (blue this) 0).

Definition set_cache (this : Color4) (c : option Z) : Color4 :=
  {| alpha := alpha this; red := red this; green := green this;
     blue := blue this; cache := c; caching := caching this |}.

(** [toAABBGGRR()] returns the packed value and the colour with its cache
    slot as the call leaves it. *)
Definition toAABBGGRR (this : Color4) : Z * Color4 :=
  let this' :=
    match caching this, cache this with
    | true, None => set_cache this (Some (getAABBGGRR this))
    | _, _ => this
    end in
  (match cache this' with
   | Some c => c
   | None => getAABBGGRR this'
   end, this').

Definition toAARRGGBB (this : Color4) : Z * Color4 :=
  let this' :=
    match caching this, cache this with
    | true, None => set_cache this (Some (getAARRGGBB this))
    | _, _ => this
    end in
  (match cache this' with
   | Some c => c
   | None => getAARRGGBB this'
   end, this').

(** The predefined colours [Color4.black], [Color4.white], [Color4.red]. *)
Definition static_black : Color4 := new 255 0 0 0 true.
Definition static_white : Color4 := new 255 255 255 255 true.
Definition static_red : Color4 := new 255 255 0 0 true.

End Color.

(** The packed value of four bytes, high byte first. *)
Definition pack4 (b3 b2 b1 b0 : Z) : Z :=
  (if b3 <? 128 then b3 else b3 - 256) * 2 ^ 24
  + b2 * 2 ^ 16 + b1 * 2 ^ 8 + b0.

(** ** point2d.ts and triangle2d.ts *)

Record Point2D : Type := mkPoint2D { px : number; py : number }.

Record Triangle2D : Type := mkTriangle2D {
  tri_a : Point2D;
  tri_b : Point2D;
  tri_c : Point2D
}.

(** A point with finite coordinates. *)
Definition Pt (x y : Q) : Point2D := mkPoint2D (Fin x) (Fin y).

Module Triangle.

(** [rasterOrder()]: three conditional swaps on y, then the two
    winding fixes. *)
Definition rasterOrder (this : Triangle2D) : Point2D * Point2D * Point2D :=
  let v0 := tri_a this in
  let v1 := tri_b this in
  let v2 := tri_c this in
  (* Sort by Y coordinate *)
  let '(v0, v1) := if (py v1 <? py v0)%num then (v1, v0) else (v0, v1) in
  let '(v1, v2) := if (py v2 <? py v1)%num then (v2, v1) else (v1, v2) in
  let '(v0, v1) := if (py v1 <? py v0)%num then (v1, v0) else (v0, v1) in
  (* Fix winding order for flat-top *)
  let '(v0, v1) :=
    if (py v0 === py v1)%num && (px v1 <? px v0)%num
    then (v1, v0) else (v0, v1) in
  (* Fix winding order for flat-bottom *)
  let '(v1, v2) :=
    if (py v1 === py v2)%num && (px v2 <? px v1)%num
    then (v2, v1) else (v1, v2) in
  (v0, v1, v2).

End Triangle.

(** ** clipping.ts *)

(** The four bounds held in the [Int16Array]. *)
Record Clipping : Type := mkClipping {
  minX : Z;
  minY : Z;
  maxX : Z;
  maxY : Z
}.

Module Clip.

(** Conversion of a number stored into an [Int16Array]: NaN and the
    infinities become 0, a finite value is truncated and wrapped. *)
Definition ToInt16 (x : number) : Z :=
  match x with
  | Fin q =>
      let t := if (0 <=? Qnum q)%Z then Qfloor q else Qceiling q in
      (t + 2 ^ 15) mod 2 ^ 16 - 2 ^ 15
  | _ => 0
  end.

Definition new (minX minY maxX maxY : number) : Clipping :=
  mkClipping (ToInt16 minX) (ToInt16 minY) (ToInt16 maxX) (ToInt16 maxY).

Definition inside (this : Clipping) (x y : number) : bool :=
  (x >=? #(minX this))%num &&
  (x <=? #(maxX this))%num &&
  (y >=? #(minY this))%num &&
  (y <=? #(maxY this))%num.

Definition outside (this : Clipping) (x y : number) : bool :=
  (x <? #(minX this))%num ||
  (x >=? #(maxX this))%num ||
  (y <? #(minY this))%num ||
  (y >=? #(maxY this))%num.

End Clip.

(** ** clip.ts *)

(** The working interval [tMin, tMax] that [testEdge] updates. *)
Record Interval : Type := mkInterval { tMin : number; tMax : number }.

(** [testEdge(delta, distance)]: the returned flag and the interval as the
    call leaves it. *)
Definition testEdge (delta distance : number) (i : Interval) : bool * Interval :=
  if (delta === #0)%num then ((distance >=? #0)%num, i)
  else
    let t := (distance / delta)%num in
    if (delta <? #0)%num then
      (* Potential entry point *)
      if (t >? tMax i)%num then (false, i)
      else if (t >? tMin i)%num then (true, mkInterval t (tMax i))
      else (true, i)
    else
      (* Potential exit point *)
      if (t <? tMin i)%num then (false, i)
      else if (t <? tMax i)%num then (true, mkInterval (tMin i) t)
      else (true, i).

(** The short-circuit [&&] of two edge tests. *)
Definition and_then (r : bool * Interval) (k : Interval -> bool * Interval)
  : bool * Interval :=
  if fst r then k (snd r) else r.

Definition clipLineLiangBarsky (a b : Point2D) (clipping : Clipping)
  : option (Point2D * Point2D) :=
  let deltaX := (px b - px a)%num in
  let deltaY := (py b - py a)%num in
  let i := mkInterval #0 #1 in
  let r :=
    and_then (testEdge (- deltaX) (px a - #(minX clipping))%num i) (fun i =>
    and_then (testEdge deltaX ((#(maxX clipping) - #1) - px a)%num i) (fun i =>
    and_then (testEdge (- deltaY) (py a - #(minY clipping))%num i) (fun i =>
    testEdge deltaY ((#(maxY clipping) - #1) - py a)%num i))) in
  if fst r then
    Some (mkPoint2D (px a + tMin (snd r) * deltaX)%num
                    (py a + tMin (snd r) * deltaY)%num,
          mkPoint2D (px a + tMax (snd r) * deltaX)%num
                    (py a + tMax (snd r) * deltaY)%num)
  else None.

(** ** The backbuffer *)

(** The cells of the [Uint32Array], and a history of the stores executed on
    it: the pixel coordinates (x, y) of every [backbuffer[index] = value]
    statement that ran, oldest first.  The history is not program state. *)
Record Backbuffer : Type := mkBackbuffer {
  cells : list Z;
  plotted : list (number * number)
}.

(** [array[index] = value] on a [Uint32Array]: the value is stored modulo
    2^32 when the index is an integer inside the array, and the statement
    does nothing otherwise. *)
Definition Uint32Array_set (array : list Z) (index : number) (value : Z) : list Z :=
  match index with
  | Fin q =>
      if Qeq_bool q (inject_Z (Qfloor q))
         && (0 <=? Qfloor q)%Z
         && (Qfloor q <? Z.of_nat (length array))%Z
      then <[Z.to_nat (Qfloor q) := ToUint32 value]> array
      else array
  | _ => array
  end.

Definition store (backbuffer : Backbuffer) (x y index : number) (value : Z)
  : Backbuffer :=
  {| cells := Uint32Array_set (cells backbuffer) index value;
     plotted := plotted backbuffer ++ [(x, y)] |}.

(** ** blitter.ts and pixel.ts *)

Record Blitter : Type := mkBlitter {
  width : Z;
  height : Z;
  clipping : Clipping
}.

(** [setPixel] of pixel.ts.  The call [color.toAABBGGRR()] may fill the cache
    of the colour; the value of later calls is the same either way (see
    [toAABBGGRR_stable]), so the colour is not threaded through the drawing
    functions. *)
Definition setPixel (blitter : Blitter) (x y : number) (color : Color4)
    (clip : bool) (backbuffer : Backbuffer) : Backbuffer :=
  if clip &&
     ((x <? #(minX (clipping blitter)))%num ||
      (x >=? #(maxX (clipping blitter)))%num ||
      (y <? #(minY (clipping blitter)))%num ||
      (y >=? #(maxY (clipping blitter)))%num)
  then backbuffer
  else store backbuffer x y (y * #(width blitter) + x)%num
             (fst (Color.toAABBGGRR color)).

Module Blit.

(** [Blitter.create]: the clipping region matches the canvas. *)
Definition create (width height : Z) : Blitter :=
  mkBlitter width height (Clip.new #0 #0 #width #height).

(** [Blitter.setPixel]: floors the coordinates and calls [setPixel]. *)
Definition setPixel (this : Blitter) (x y : number) (color : Color4)
    (clip : bool) (backbuffer : Backbuffer) : Backbuffer :=
  setPixel this (Num.floor x) (Num.floor y) color clip backbuffer.

End Blit.

(** ** line.ts *)

(** The [while (true)] loop of [drawLineBresenham]; one unit of fuel per
    iteration. *)
Fixpoint bresenham_loop (fuel : nat) (blitter : Blitter) (color : Color4)
    (x0 y0 x1 y1 deltaX deltaY stepX stepY error : number)
    (backbuffer : Backbuffer) : option Backbuffer :=
  match fuel with
  | O => None
  | S fuel =>
      let backbuffer := Blit.setPixel blitter x0 y0 color false backbuffer in
      (* Exit condition: end of line reached *)
      if (x0 === x1)%num && (y0 === y1)%num then Some backbuffer
      else
        let doubleError := (#2 * error)%num in
        (* Horizontal step *)
        let '(error, x0) :=
          if (doubleError >? - deltaY)%num
          then ((error - deltaY)%num, (x0 + stepX)%num)
          else (error, x0) in
        (* Vertical step *)
        let '(error, y0) :=
          if (doubleError <? deltaX)%num
          then ((error + deltaX)%num, (y0 + stepY)%num)
          else (error, y0) in
        bresenham_loop fuel blitter color x0 y0 x1 y1 deltaX deltaY
                       stepX stepY error backbuffer
  end.

Definition drawLineBresenham (fuel : nat) (blitter : Blitter) (a b : Point2D)
    (color : Color4) (clip : bool) (backbuffer : Backbuffer)
  : option Backbuffer :=
  let clipped :=
    if clip then clipLineLiangBarsky a b (clipping blitter) else Some (a, b) in
  match clipped with
  | None => Some backbuffer
  | Some (a, b) =>
      let x0 := Num.floor (px a) in
      let y0 := Num.floor (py a) in
      let x1 := Num.floor (px b) in
      let y1 := Num.floor (py b) in
      let deltaX := Num.abs (x1 - x0) in
      let deltaY := Num.abs (y1 - y0) in
      let stepX := if (x0 <? x1)%num then Num.of_Z 1 else Num.of_Z (-1) in
      let stepY := if (y0 <? y1)%num then Num.of_Z 1 else Num.of_Z (-1) in
      let error := (deltaX - deltaY)%num in
      bresenham_loop fuel blitter color x0 y0 x1 y1 deltaX deltaY
                     stepX stepY error backbuffer
  end.

(** The [for (i = 0; i <= steps; i++)] loop of [drawLineDDA]; one unit of
    fuel per evaluation of the loop condition. *)
Fixpoint dda_loop (fuel : nat) (blitter : Blitter) (color : Color4)
    (i steps x y stepX stepY : number) (backbuffer : Backbuffer)
  : option Backbuffer :=
  match fuel with
  | O => None
  | S fuel =>
      if (i <=? steps)%num then
        let backbuffer := Blit.setPixel blitter x y color false backbuffer in
        dda_loop fuel blitter color (i + #1)%num steps
                 (x + stepX)%num (y + stepY)%num stepX stepY backbuffer
      else Some backbuffer
  end.

Definition drawLineDDA (fuel : nat) (blitter : Blitter) (a b : Point2D)
    (color : Color4) (clip : bool) (backbuffer : Backbuffer)
  : option Backbuffer :=
  let clipped :=
    if clip then clipLineLiangBarsky a b (clipping blitter) else Some (a, b) in
  match clipped with
  | None => Some backbuffer
  | Some (a, b) =>
      let deltaX := (px b - px a)%num in
      let deltaY := (py b - py a)%num in
      let steps := Num.max (Num.abs deltaX) (Num.abs deltaY) in
      if (steps === #0)%num then
        Some (Blit.setPixel blitter (px a) (py a) color clip backbuffer)
      else
        let stepX := (deltaX / steps)%num in
        let stepY := (deltaY / steps)%num in
        dda_loop fuel blitter color #0 steps (px a) (py a) stepX stepY
                 backbuffer
  end.

(** ** flat-scanline.ts *)

(** The inner loop [for (x = xStart; x < xEnd; x++)] of [rasterScanlines]. *)
Fixpoint span_loop (fuel : nat) (x xEnd y position : number) (color : Z)
    (backbuffer : Backbuffer) : option Backbuffer :=
  match fuel with
  | O => None
  | S fuel =>
      if (x <? xEnd)%num then
        span_loop fuel (x + #1)%num xEnd y position color
                  (store backbuffer x y (position + x)%num color)
      else Some backbuffer
  end.

(** The outer loop [for (y = clampedYStart; y < clampedYEnd; y++)]. *)
Fixpoint scanline_loop (fuel : nat) (width : number)
    (y clampedYEnd position xLeft xRight slopeLeft slopeRight : number)
    (color : Z) (backbuffer : Backbuffer) : option Backbuffer :=
  match fuel with
  | O => None
  | S fuel' =>
      if (y <? clampedYEnd)%num then
        let xStart := Num.max #0 (Num.ceil xLeft) in
        let xEnd := Num.min width (Num.ceil xRight) in
        match span_loop fuel xStart xEnd y position color backbuffer with
        | None => None
        | Some backbuffer =>
            scanline_loop fuel' width (y + #1)%num clampedYEnd
                          (position + width)%num
                          (xLeft + slopeLeft)%num (xRight + slopeRight)%num
                          slopeLeft slopeRight color backbuffer
        end
      else Some backbuffer
  end.

Definition rasterScanlines (fuel : nat) (width height : number)
    (yStart yEnd xLeft xRight slopeLeft slopeRight : number) (color : Z)
    (backbuffer : Backbuffer) : option Backbuffer :=
  let clampedYStart := Num.max #0 yStart in
  let clampedYEnd := Num.min height yEnd in
  let position := (clampedYStart * width)%num in
  scanline_loop fuel width clampedYStart clampedYEnd position
                xLeft xRight slopeLeft slopeRight color backbuffer.

Definition fillFlatTop (fuel : nat) (width height : number)
    (v0 v1 v2 : Point2D) (color : Z) (backbuffer : Backbuffer)
  : option Backbuffer :=
  let dyLeft := (py v2 - py v0)%num in
  let dyRight := (py v2 - py v1)%num in
  (* Avoid divide-by-zero *)
  if (dyLeft === #0)%num || (dyRight === #0)%num then Some backbuffer
  else
    let slopeLeft := ((px v2 - px v0) / dyLeft)%num in
    let slopeRight := ((px v2 - px v1) / dyRight)%num in
    let yStart := Num.ceil (py v0) in
    let yEnd := Num.ceil (py v2) in
    rasterScanlines fuel width height yStart yEnd (px v0) (px v1)
                    slopeLeft slopeRight color backbuffer.

Definition fillFlatBottom (fuel : nat) (width height : number)
    (v0 v1 v2 : Point2D) (color : Z) (backbuffer : Backbuffer)
  : option Backbuffer :=
  let dyLeft := (py v1 - py v0)%num in
  let dyRight := (py v2 - py v0)%num in
  (* Avoid divide-by-zero *)
  if (dyLeft === #0)%num || (dyRight === #0)%num then Some backbuffer
  else
    let slopeLeft := ((px v1 - px v0) / dyLeft)%num in
    let slopeRight := ((px v2 - px v0) / dyRight)%num in
    let yStart := Num.ceil (py v0) in
    let yEnd := Num.ceil (py v1) in
    rasterScanlines fuel width height yStart yEnd (px v0) (px v0)
                    slopeLeft slopeRight color backbuffer.

Definition fillFlatScanline (fuel : nat) (blitter : Blitter)
    (triangle : Triangle2D) (color : Color4) (backbuffer : Backbuffer)
  : option Backbuffer :=
  let '(v0, v1, v2) := Triangle.rasterOrder triangle in
  let width := Num.of_Z (width blitter) in
  let height := Num.of_Z (height blitter) in
  let colorUnpacked := fst (Color.toAABBGGRR color) in
  if (py v1 === py v2)%num then
    (* Case 1: flat-bottom triangle *)
    fillFlatBottom fuel width height v0 v1 v2 colorUnpacked backbuffer
  else if (py v0 === py v1)%num then
    (* Case 2: flat-top triangle *)
    fillFlatTop fuel width height v0 v1 v2 colorUnpacked backbuffer
  else
    (* Case 3: general triangle, split at the middle vertex *)
    let t := ((py v1 - py v0) / (py v2 - py v0))%num in
    let v3 := mkPoint2D (px v0 + t * (px v2 - px v0))%num (py v1) in
    let '(left', right') :=
      if (px v1 <? px v3)%num then (v1, v3) else (v3, v1) in
    match fillFlatBottom fuel width height v0 left' right' colorUnpacked
                         backbuffer with
    | None => None
    | Some backbuffer =>
        fillFlatTop fuel width height left' right' v2 colorUnpacked backbuffer
    end.

(** ** Reading pixels, filling the buffer (pixel.ts, blitter.ts) *)

(** [array[index]] on a [Uint32Array]: the cell when the index is an integer
    inside the array, and [undefined] ([None]) otherwise. *)
Definition Uint32Array_get (array : list Z) (index : number) : option Z :=
  match index with
  | Fin q =>
      if Qeq_bool q (inject_Z (Qfloor q))
         && (0 <=? Qfloor q)%Z
         && (Qfloor q <? Z.of_nat (length array))%Z
      then array !! Z.to_nat (Qfloor q)
      else None
  | _ => None
  end.

(** What [getPixel] answers: [null] when the pixel is clipped, and otherwise
    the colour [new Color4().fromAABBGGRR(cell)].  When the cell read is
    [undefined] that colour has its four channels 0 and [undefined] in its
    cache slot; [ReadUndefined] stands for it. *)
Inductive PixelRead : Type :=
| ReadNull
| ReadUndefined
| ReadColor (c : Color4).

(** [getPixel] of pixel.ts. *)
Definition getPixel (blitter : Blitter) (x y : number) (clip : bool)
    (backbuffer : Backbuffer) : PixelRead :=
  if clip &&
     ((x <? #(minX (clipping blitter)))%num ||
      (x >=? #(maxX (clipping blitter)))%num ||
      (y <? #(minY (clipping blitter)))%num ||
      (y >=? #(maxY (clipping blitter)))%num)
  then ReadNull
  else
    match Uint32Array_get (cells backbuffer) (y * #(width blitter) + x)%num with
    | Some cell => ReadColor (Color.fromAABBGGRR Color.default cell)
    | None => ReadUndefined
    end.

(** [Blitter.getPixel]: floors the coordinates and calls [getPixel]. *)
Definition Blitter_getPixel (this : Blitter) (x y : number) (clip : bool)
    (backbuffer : Backbuffer) : PixelRead :=
  getPixel this (Num.floor x) (Num.floor y) clip backbuffer.

(** [Blitter.fill]: [backbuffer.fill(color)] sets every cell to the colour,
    converted as a store converts it. *)
Definition Blitter_fill (color : Z) (backbuffer : Backbuffer) : Backbuffer :=
  {| cells := map (fun _ => ToUint32 color) (cells backbuffer);
     plotted := plotted backbuffer |}.

(** [Blitter.clear(color)] *)
Definition Blitter_clear (color : Color4) (backbuffer : Backbuffer)
  : Backbuffer :=
  Blitter_fill (fst (Color.toAABBGGRR color)) backbuffer.

(** ** helper.ts, continued *)

(** [lerp(start, end, t)] *)
Definition lerp (start end_ t : number) : number :=
  (start * (#1 - t) + end_ * t)%num.

(** ** Vocabulary of the statements *)

Section Vocabulary.

Local Open Scope Q_scope.





End Vocabulary.

(** The stores of [Blitter.setPixel], clipping off, at a list of pixels. *)
Definition plot_all (blitter : Blitter) (color : Color4)
    (pixels : list (Z * Z)) (bb : Backbuffer) : Backbuffer :=
  fold_left (fun bb p => Blit.setPixel blitter #(fst p) #(snd p) color false bb)
            pixels bb.










(** The channels of a colour are bytes. *)
Definition channels_in_range (c : Color4) : Prop :=
  0 <= alpha c <= 255 /\ 0 <= red c <= 255 /\
  0 <= green c <= 255 /\ 0 <= blue c <= 255.



(** * Properties *)

(** ** Numbers *)

Section NumberFacts.

Lemma leb_le (x y : number) : (x <=? y)%num = true <-> Num.le x y.
Proof.
  destruct x, y; simpl; try (split; [discriminate | contradiction]);
    try tauto.
  apply Qle_bool_iff.
Qed.

Lemma ltb_lt (x y : number) : (x <? y)%num = true <-> Num.lt x y.
Proof.
  destruct x, y; simpl; try (split; [discriminate | contradiction]);
    try tauto.
  rewrite negb_true_iff, <- not_true_iff_false, Qle_bool_iff.
  split; [apply Qnot_le_lt | apply Qlt_not_le].
Qed.

Lemma geb_ge (x y : number) : (x >=? y)%num = true <-> Num.le y x.
Proof. apply leb_le. Qed.

Lemma gtb_gt (x y : number) : (x >? y)%num = true <-> Num.lt y x.
Proof. apply ltb_lt. Qed.

Lemma ltb_Fin (a b : Q) : (Fin a <? Fin b)%num = true <-> (a < b)%Q.
Proof. apply ltb_lt. Qed.

Lemma leb_Fin (a b : Q) : (Fin a <=? Fin b)%num = true <-> (a <= b)%Q.
Proof. apply leb_le. Qed.

Lemma eqb_Fin (a b : Q) : (Fin a === Fin b)%num = true <-> a == b.
Proof. apply Qeq_bool_iff. Qed.

Lemma ltb_Fin_false (a b : Q) : (Fin a <? Fin b)%num = false <-> (b <= a)%Q.
Proof.
  rewrite <- not_true_iff_false, ltb_Fin.
  split; [apply Qnot_lt_le | apply Qle_not_lt].
Qed.

Lemma leb_Fin_false (a b : Q) : (Fin a <=? Fin b)%num = false <-> (b < a)%Q.
Proof.
  rewrite <- not_true_iff_false, leb_Fin.
  split; [apply Qnot_le_lt | apply Qlt_not_le].
Qed.

Lemma eqb_le (x y : number) : (x === y)%num = true -> Num.le y x.
Proof.
  destruct x, y; simpl; try discriminate; try tauto.
  intros E. apply Qeq_bool_iff in E. rewrite E. apply Qle_refl.
Qed.

Lemma eqb_Fin_false (a b : Q) : (Fin a === Fin b)%num = false <-> ~ a == b.
Proof. rewrite <- not_true_iff_false, eqb_Fin. tauto. Qed.

End NumberFacts.

(** ** The clipping region *)

(** C9.  For every clipping region and every point, [inside] holds exactly
    when the point is within the bounds with both maxima included, and
    [outside] holds exactly when a coordinate is below its minimum or at or
    above its maximum.  The two are therefore not complements: a point that
    is inside and lies on the line x = maxX or y = maxY is outside as well. *)
Theorem inside_outside_conventions (c : Clipping) (x y : number) :
  (Clip.inside c x y = true <->
     Num.le #(minX c) x /\ Num.le x #(maxX c) /\
     Num.le #(minY c) y /\ Num.le y #(maxY c)) /\
  (Clip.outside c x y = true <->
     Num.lt x #(minX c) \/ Num.le #(maxX c) x \/
     Num.lt y #(minY c) \/ Num.le #(maxY c) y) /\
  (Clip.inside c x y = true ->
     (x === #(maxX c))%num = true \/ (y === #(maxY c))%num = true ->
     Clip.outside c x y = true).
Proof.
  assert (Hin : Clip.inside c x y = true <->
     Num.le #(minX c) x /\ Num.le x #(maxX c) /\
     Num.le #(minY c) y /\ Num.le y #(maxY c)).
  { unfold Clip.inside.
    rewrite !andb_true_iff, !geb_ge, !leb_le. tauto. }
  assert (Hout : Clip.outside c x y = true <->
     Num.lt x #(minX c) \/ Num.le #(maxX c) x \/
     Num.lt y #(minY c) \/ Num.le #(maxY c) y).
  { unfold Clip.outside.
    rewrite !orb_true_iff, !geb_ge, !ltb_lt. tauto. }
  split; [exact Hin | split; [exact Hout |]].
  intros _ Hline. apply Hout.
  destruct Hline as [E | E]; apply eqb_le in E; tauto.
Qed.

(** On the rectangle of a 100 x 100 canvas, the point (100, 5) is both
    inside and outside. *)
Lemma inside_outside_conventions_witness :
  Clip.inside (mkClipping 0 0 100 100) #100 #5 = true /\
  Clip.outside (mkClipping 0 0 100 100) #100 #5 = true.
Proof.
  split; [reflexivity |].
  apply (proj2 (proj2 (inside_outside_conventions
                         (mkClipping 0 0 100 100) #100 #5)));
    [reflexivity | left; reflexivity].
Defined.

(** ** Colours *)

Section ColorFacts.

Lemma ToInt32_small (z : Z) : - 2 ^ 31 <= z < 2 ^ 31 -> ToInt32 z = z.
Proof. unfold ToInt32. intros H. Z.div_mod_to_equations. lia. Qed.

(** Or-ing a byte into an empty byte position adds it. *)
Lemma lor_byte (v x n : Z) :
  0 <= n -> 0 <= x < 2 ^ 8 -> (v / 2 ^ n) mod 2 ^ 8 = 0 ->
  Z.lor v (x * 2 ^ n) = v + x * 2 ^ n.
Proof.
  intros Hn Hx Hv. symmetry. apply Z.add_nocarry_lor.
  apply Z.bits_inj'. intros m Hm.
  rewrite Z.land_spec, Z.bits_0.
  destruct (Z.lt_ge_cases m n) as [Hlt | Hge].
  { rewrite Z.mul_pow2_bits_low by assumption. apply andb_false_r. }
  rewrite Z.mul_pow2_bits by assumption.
  destruct (Z.lt_ge_cases (m - n) 8) as [Hlo | Hhi].
  - replace (Z.testbit v m) with (Z.testbit (v / 2 ^ n) (m - n)).
    + rewrite <- (Z.mod_pow2_bits_low (v / 2 ^ n) 8 (m - n)) by assumption.
      rewrite Hv, Z.bits_0. reflexivity.
    + rewrite Z.div_pow2_bits by lia. f_equal. lia.
  - rewrite <- (Z.mod_small x (2 ^ 8)) by assumption.
    rewrite Z.mod_pow2_bits_high by lia. apply andb_false_r.
Qed.

Lemma shl_byte (x n : Z) :
  0 <= x <= 255 -> 0 <= n <= 16 -> shl x n = x * 2 ^ n.
Proof.
  intros Hx Hn. unfold shl, ToUint32.
  rewrite (Z.mod_small n) by lia.
  rewrite (Z.mod_small n) by lia.
  rewrite (ToInt32_small x) by lia.
  rewrite Z.shiftl_mul_pow2 by lia.
  apply ToInt32_small.
  assert (2 ^ n <= 2 ^ 16) by (apply Z.pow_le_mono_r; lia).
  assert (0 < 2 ^ n) by (apply Z.pow_pos_nonneg; lia).
  nia.
Qed.

Lemma shl_alpha (x : Z) :
  0 <= x <= 255 ->
  shl x 24 = (if x <? 128 then x else x - 256) * 2 ^ 24.
Proof.
  intros Hx. unfold shl, ToUint32.
  change (24 mod 2 ^ 32 mod 32) with 24.
  rewrite (ToInt32_small x) by lia.
  rewrite Z.shiftl_mul_pow2 by lia.
  unfold ToInt32. destruct (Z.ltb_spec x 128); Z.div_mod_to_equations; lia.
Qed.

Lemma pack4_range (b3 b2 b1 b0 : Z) :
  0 <= b3 <= 255 -> 0 <= b2 <= 255 -> 0 <= b1 <= 255 -> 0 <= b0 <= 255 ->
  - 2 ^ 31 <= pack4 b3 b2 b1 b0 < 2 ^ 31.
Proof. intros. unfold pack4. destruct (Z.ltb_spec b3 128); lia. Qed.

Lemma getAABBGGRR_pack4 (c : Color4) :
  0 <= alpha c <= 255 -> 0 <= red c <= 255 ->
  0 <= green c <= 255 -> 0 <= blue c <= 255 ->
  Color.getAABBGGRR c = pack4 (alpha c) (blue c) (green c) (red c).
Proof.
  intros Ha Hr Hg Hb. unfold Color.getAABBGGRR, bor, pack4.
  rewrite shl_alpha by lia. rewrite !shl_byte by lia.
  set (h := if alpha c <? 128 then alpha c else alpha c - 256).
  assert (Hh : -128 <= h <= 127)
    by (subst h; destruct (Z.ltb_spec (alpha c) 128); lia).
  rewrite (ToInt32_small (h * 2 ^ 24)) by lia.
  rewrite (ToInt32_small (red c * 2 ^ 0)) by lia.
  rewrite lor_byte by (try lia; Z.div_mod_to_equations; lia).
  rewrite (ToInt32_small (h * 2 ^ 24 + red c * 2 ^ 0)) by lia.
  rewrite (ToInt32_small (green c * 2 ^ 8)) by lia.
  rewrite lor_byte by (try lia; Z.div_mod_to_equations; lia).
  rewrite (ToInt32_small (_ + green c * 2 ^ 8)) by lia.
  rewrite (ToInt32_small (blue c * 2 ^ 16)) by lia.
  rewrite lor_byte by (try lia; Z.div_mod_to_equations; lia).
  lia.
Qed.

Lemma getAARRGGBB_pack4 (c : Color4) :
  0 <= alpha c <= 255 -> 0 <= red c <= 255 ->
  0 <= green c <= 255 -> 0 <= blue c <= 255 ->
  Color.getAARRGGBB c = pack4 (alpha c) (red c) (green c) (blue c).
Proof.
  intros Ha Hr Hg Hb. unfold Color.getAARRGGBB, bor, pack4.
  rewrite shl_alpha by lia. rewrite !shl_byte by lia.
  set (h := if alpha c <? 128 then alpha c else alpha c - 256).
  assert (Hh : -128 <= h <= 127)
    by (subst h; destruct (Z.ltb_spec (alpha c) 128); lia).
  rewrite (ToInt32_small (h * 2 ^ 24)) by lia.
  rewrite (ToInt32_small (red c * 2 ^ 16)) by lia.
  rewrite lor_byte by (try lia; Z.div_mod_to_equations; lia).
  rewrite (ToInt32_small (h * 2 ^ 24 + red c * 2 ^ 16)) by lia.
  rewrite (ToInt32_small (green c * 2 ^ 8)) by lia.
  rewrite lor_byte by (try lia; Z.div_mod_to_equations; lia).
  rewrite (ToInt32_small (_ + green c * 2 ^ 8)) by lia.
  rewrite (ToInt32_small (blue c * 2 ^ 0)) by lia.
  rewrite lor_byte by (try lia; Z.div_mod_to_equations; lia).
  lia.
Qed.

(** The byte at bit position [n] of a packed value. *)
Lemma byte_of_pack4 (b3 b2 b1 b0 : Z) :
  0 <= b3 <= 255 -> 0 <= b2 <= 255 -> 0 <= b1 <= 255 -> 0 <= b0 <= 255 ->
  let v := pack4 b3 b2 b1 b0 in
  band (sar v 24) 255 = b3 /\ band (sar v 16) 255 = b2 /\
  band (sar v 8) 255 = b1 /\ band (sar v 0) 255 = b0.
Proof.
  intros H3 H2 H1 H0 v.
  pose proof (pack4_range b3 b2 b1 b0 H3 H2 H1 H0) as Hv. fold v in Hv.
  assert (Hbyte : forall n, 0 <= n <= 24 ->
            band (sar v n) 255 = (v / 2 ^ n) mod 2 ^ 8).
  { intros n Hn. unfold band, sar, ToUint32.
    rewrite (Z.mod_small n) by lia.
    rewrite (Z.mod_small n) by lia.
    rewrite (ToInt32_small v) by assumption.
    rewrite Z.shiftr_div_pow2 by lia.
    assert (0 < 2 ^ n) by (apply Z.pow_pos_nonneg; lia).
    rewrite (ToInt32_small (v / 2 ^ n))
      by (split; [apply Z.div_le_lower_bound | apply Z.div_lt_upper_bound];
          nia).
    change (ToInt32 255) with (Z.ones 8).
    apply Z.land_ones. lia. }
  rewrite !Hbyte by lia.
  subst v. unfold pack4 in *.
  destruct (Z.ltb_spec b3 128); repeat split; Z.div_mod_to_equations; lia.
Qed.

End ColorFacts.

Section ColorClaims.

Lemma clamp_id (v : Z) : 0 <= v <= 255 -> clamp v 0 255 = v.
Proof. unfold clamp. lia. Qed.

(** Filling the cache does not change what [toAABBGGRR] answers next. *)
Lemma toAABBGGRR_stable (c : Color4) :
  fst (Color.toAABBGGRR (snd (Color.toAABBGGRR c)))
  = fst (Color.toAABBGGRR c).
Proof.
  unfold Color.toAABBGGRR.
  destruct c as [a r g b [v |] [|]]; reflexivity.
Qed.

(** C10.  For all channel values in 0..255, a colour constructed from them,
    packed and unpacked into a fresh colour, has the same four channels; for
    the order AABBGGRR ([toAABBGGRR] then [fromAABBGGRR]) and for the order
    AARRGGBB ([toAARRGGBB] then [fromARRGGBB]), each starting from the
    constructed colour. *)
Theorem pack_unpack_roundtrip (a r g b : Z) (caching : bool) :
  0 <= a <= 255 -> 0 <= r <= 255 -> 0 <= g <= 255 -> 0 <= b <= 255 ->
  let c := Color.new a r g b caching in
  let u1 := Color.fromAABBGGRR Color.default (fst (Color.toAABBGGRR c)) in
  let u2 := Color.fromARRGGBB Color.default (fst (Color.toAARRGGBB c)) in
  (alpha u1, red u1, green u1, blue u1) = (a, r, g, b) /\
  (alpha u2, red u2, green u2, blue u2) = (a, r, g, b).
Proof.
  intros Ha Hr Hg Hb c u1 u2.
  assert (Hc : c = mkColor4 a r g b None caching)
    by (subst c; unfold Color.new; rewrite !clamp_id by assumption;
        reflexivity).
  assert (H1 : fst (Color.toAABBGGRR c) = pack4 a b g r).
  { rewrite Hc. unfold Color.toAABBGGRR.
    destruct caching; simpl; apply getAABBGGRR_pack4; assumption. }
  assert (H2 : fst (Color.toAARRGGBB c) = pack4 a r g b).
  { rewrite Hc. unfold Color.toAARRGGBB.
    destruct caching; simpl; apply getAARRGGBB_pack4; assumption. }
  subst u1 u2. rewrite H1, H2.
  destruct (byte_of_pack4 a b g r Ha Hb Hg Hr) as (E3 & E2 & E1 & E0).
  destruct (byte_of_pack4 a r g b Ha Hr Hg Hb) as (F3 & F2 & F1 & F0).
  cbv zeta in *. unfold Color.fromAABBGGRR, Color.fromARRGGBB. simpl.
  rewrite E3, E2, E1, E0, F3, F2, F1, F0. split; reflexivity.
Qed.

Lemma pack_unpack_roundtrip_witness :
  let c := Color.new 255 17 34 51 true in
  let u1 := Color.fromAABBGGRR Color.default (fst (Color.toAABBGGRR c)) in
  let u2 := Color.fromARRGGBB Color.default (fst (Color.toAARRGGBB c)) in
  (alpha u1, red u1, green u1, blue u1) = (255, 17, 34, 51) /\
  (alpha u2, red u2, green u2, blue u2) = (255, 17, 34, 51).
Proof. apply (pack_unpack_roundtrip 255 17 34 51 true); lia. Defined.

End ColorClaims.

(** C1.  The single cache slot does not record the channel order of the value
    it holds.  A colour that ingested 0xFF112233 as AARRGGBB has the channels
    (255, 17, 34, 51), whose AABBGGRR packing is 0xFF332211 (-13426159 as a
    signed 32-bit value), but [toAABBGGRR] answers the cached 0xFF112233.
    Likewise, once [toAABBGGRR] has filled the cache of the predefined red,
    [toAARRGGBB] answers the AABBGGRR value -16776961 instead of -65536. *)
Theorem cache_answers_in_the_wrong_order :
  let c := Color.fromARRGGBB Color.default 0xFF112233 in
  let d := snd (Color.toAABBGGRR Color.static_red) in
  (alpha c, red c, green c, blue c) = (255, 17, 34, 51) /\
  Color.getAABBGGRR c = -13426159 /\
  ToUint32 (Color.getAABBGGRR c) = 0xFF332211 /\
  fst (Color.toAABBGGRR c) = 0xFF112233 /\
  Color.getAARRGGBB d = -65536 /\
  fst (Color.toAARRGGBB d) = -16776961.
Proof. vm_compute. repeat split; reflexivity. Qed.

(** ** Raster order of a triangle *)

(** Case analysis on the tests of a conditional, and the facts the tests
    decide on finite numbers. *)
Ltac num_cases :=
  repeat match goal with
  | |- context [if ?b then _ else _] =>
      let E := fresh "E" in destruct b eqn:E; cbn [px py fst snd] in *
  end.

Ltac num_facts :=
  repeat match goal with
  | H : (_ && _)%bool = true |- _ => apply andb_true_iff in H; destruct H
  | H : (_ && _)%bool = false |- _ => apply andb_false_iff in H; destruct H
  | H : (Fin _ <? Fin _)%num = true |- _ => apply ltb_Fin in H
  | H : (Fin _ <? Fin _)%num = false |- _ => apply ltb_Fin_false in H
  | H : (Fin _ <=? Fin _)%num = true |- _ => apply leb_Fin in H
  | H : (Fin _ <=? Fin _)%num = false |- _ => apply leb_Fin_false in H
  | H : (Fin _ === Fin _)%num = true |- _ => apply eqb_Fin in H
  | H : (Fin _ === Fin _)%num = false |- _ => apply eqb_Fin_false in H
  end.

(** With finite coordinates the three swaps sort the vertices by y. *)
Lemma rasterOrder_y_sorted (ax ay bx by_ cx cy : Q) :
  let '(v0, v1, v2) :=
    Triangle.rasterOrder (mkTriangle2D (Pt ax ay) (Pt bx by_) (Pt cx cy)) in
  Num.le (py v0) (py v1) /\ Num.le (py v1) (py v2).
Proof.
  unfold Triangle.rasterOrder, Pt. cbn [tri_a tri_b tri_c px py].
  num_cases; num_facts; simpl; split; lra.
Qed.

(** The bottom pair of a flat-bottom result is ordered by x, and so is the
    top pair of a flat-top result whose third vertex lies strictly lower. *)
Lemma rasterOrder_flat_pairs (ax ay bx by_ cx cy : Q) :
  let '(v0, v1, v2) :=
    Triangle.rasterOrder (mkTriangle2D (Pt ax ay) (Pt bx by_) (Pt cx cy)) in
  ((py v1 === py v2)%num = true -> Num.le (px v1) (px v2)) /\
  ((py v0 === py v1)%num = true -> Num.lt (py v1) (py v2) ->
   Num.le (px v0) (px v1)).
Proof.
  unfold Triangle.rasterOrder, Pt. cbn [tri_a tri_b tri_c px py].
  num_cases; num_facts; split; intros; cbn [px py Num.le Num.lt] in *;
    num_facts; lra.
Qed.

(** C4.  On the level triangle (1,0), (2,0), (0,0) the flat-bottom fix undoes
    the flat-top fix: [rasterOrder] answers (1,0), (0,0), (2,0), whose first
    two vertices share the minimum y and are not in ascending x. *)
Theorem rasterOrder_level_triangle_unordered :
  let '(v0, v1, v2) :=
    Triangle.rasterOrder (mkTriangle2D (Pt 1 0) (Pt 2 0) (Pt 0 0)) in
  (v0, v1, v2) = (Pt 1 0, Pt 0 0, Pt 2 0) /\
  (py v0 === py v1)%num = true /\
  (px v1 <? px v0)%num = true.
Proof. vm_compute. repeat split; reflexivity. Qed.

(** ** The Liang-Barsky clipper *)

Section ClipperFacts.

Local Open Scope Q_scope.

Lemma div_Fin (q p : Q) :
  ~ p == 0 -> exists t, (Fin q / Fin p)%num = Fin t /\ t * p == q.
Proof.
  intros Hp. unfold Num.div.
  destruct (Qeq_bool p 0) eqn:E.
  - apply Qeq_bool_iff in E. contradiction.
  - exists (Qred (q / p)). split; [reflexivity |].
    rewrite Qred_correct. field. assumption.
Qed.






End ClipperFacts.

Section ClipperClaims.

Local Open Scope Q_scope.








End ClipperClaims.

(** ** Integers among the numbers *)

Section IntegerNumbers.

Lemma Qred_inject_Z (z : Z) : Qred (inject_Z z) = inject_Z z.
Proof.
  unfold inject_Z, Qred.
  pose proof (Z.ggcd_gcd z 1) as Hg.
  pose proof (Z.ggcd_correct_divisors z 1) as Hd.
  destruct (Z.ggcd z 1) as [g [aa bb]]. simpl in *.
  rewrite Z.gcd_1_r in Hg. subst g. destruct Hd as [Ha Hb].
  replace aa with z by lia. replace bb with 1%Z by lia. reflexivity.
Qed.

Lemma Qred_to_Z (q : Q) (z : Z) : q == inject_Z z -> Qred q = inject_Z z.
Proof.
  intros H. rewrite <- (Qred_inject_Z z). apply Qred_complete. exact H.
Qed.

Lemma of_Z_add (a b : Z) : (#a + #b)%num = Num.of_Z (a + b).
Proof.
  unfold Num.of_Z. cbn [Num.add]. f_equal. apply Qred_to_Z.
  rewrite inject_Z_plus. reflexivity.
Qed.



Lemma of_Z_mul (a b : Z) : (#a * #b)%num = Num.of_Z (a * b).
Proof.
  unfold Num.of_Z. cbn [Num.mul]. f_equal. apply Qred_to_Z.
  rewrite inject_Z_mult. reflexivity.
Qed.


Lemma of_Z_ltb (a b : Z) : (#a <? #b)%num = (a <? b)%Z.
Proof.
  apply eq_true_iff_eq. unfold Num.of_Z. rewrite ltb_Fin, <- Zlt_Qlt.
  symmetry. apply Z.ltb_lt.
Qed.

Lemma of_Z_leb (a b : Z) : (#a <=? #b)%num = (a <=? b)%Z.
Proof.
  apply eq_true_iff_eq. unfold Num.of_Z. rewrite leb_Fin, <- Zle_Qle.
  symmetry. apply Z.leb_le.
Qed.


Lemma of_Z_floor (a : Z) : Num.floor (Num.of_Z a) = Num.of_Z a.
Proof. unfold Num.of_Z. cbn [Num.floor]. rewrite Qfloor_Z. reflexivity. Qed.

End IntegerNumbers.

(** ** The pixel-write primitive *)

Section PixelFacts.

Lemma Uint32Array_set_Z (array : list Z) (i v : Z) :
  Uint32Array_set array #i v =
  if (0 <=? i) && (i <? Z.of_nat (length array))
  then <[Z.to_nat i := ToUint32 v]> array else array.
Proof.
  unfold Uint32Array_set, Num.of_Z. rewrite Qfloor_Z, Qeq_bool_refl.
  reflexivity.
Qed.

(** With clipping off, [setPixel] always executes its store. *)
Lemma setPixel_unclipped (blitter : Blitter) (x y : number) (color : Color4)
    (bb : Backbuffer) :
  setPixel blitter x y color false bb =
  store bb x y (y * #(width blitter) + x)%num (fst (Color.toAABBGGRR color)).
Proof. reflexivity. Qed.




End PixelFacts.

(** ** The line rasterisers *)

Section LineFacts.

Lemma bresenham_loop_more_fuel (k fuel : nat) (blitter : Blitter)
    (color : Color4) (x0 y0 x1 y1 deltaX deltaY stepX stepY error : number)
    (bb r : Backbuffer) :
  bresenham_loop fuel blitter color x0 y0 x1 y1 deltaX deltaY stepX stepY
                 error bb = Some r ->
  bresenham_loop (fuel + k) blitter color x0 y0 x1 y1 deltaX deltaY
                 stepX stepY error bb = Some r.
Proof.
  revert x0 y0 error bb.
  induction fuel as [| fuel IH]; intros x0 y0 error bb; [discriminate |].
  cbn [bresenham_loop Nat.add].
  destruct ((x0 === x1)%num && (y0 === y1)%num); [trivial |].
  destruct (#2 * error >? - deltaY)%num, (#2 * error <? deltaX)%num;
    apply IH.
Qed.

Lemma dda_loop_more_fuel (k fuel : nat) (blitter : Blitter) (color : Color4)
    (i steps x y stepX stepY : number) (bb r : Backbuffer) :
  dda_loop fuel blitter color i steps x y stepX stepY bb = Some r ->
  dda_loop (fuel + k) blitter color i steps x y stepX stepY bb = Some r.
Proof.
  revert i x y bb.
  induction fuel as [| fuel IH]; intros i x y bb; [discriminate |].
  cbn [dda_loop Nat.add].
  destruct (i <=? steps)%num; [apply IH | trivial].
Qed.











(** The loops that do not end. *)
Lemma bresenham_loop_NaN (blitter : Blitter) (color : Color4) (fuel : nat) :
  forall (y0 x1 y1 deltaX deltaY stepX stepY error : number) (bb : Backbuffer),
    bresenham_loop fuel blitter color NaN y0 x1 y1 deltaX deltaY stepX stepY
                   error bb = None.
Proof.
  induction fuel as [| fuel IH]; intros; [reflexivity |].
  cbn [bresenham_loop Num.eqb andb].
  destruct (#2 * error >? - deltaY)%num, (#2 * error <? deltaX)%num;
    apply IH.
Qed.





End LineFacts.

(** ** The scanline filler *)

Section FillFacts.

Lemma of_Z_max (a b : Z) : Num.max #a #b = Num.of_Z (Z.max a b).
Proof.
  unfold Num.max. change (Num.of_Z a) with (Fin (inject_Z a)) at 1.
  change (Num.of_Z b) with (Fin (inject_Z b)) at 1. cbv iota beta.
  rewrite of_Z_leb. destruct (Z.leb_spec a b); f_equal; lia.
Qed.

Lemma of_Z_min (a b : Z) : Num.min #a #b = Num.of_Z (Z.min a b).
Proof.
  unfold Num.min. change (Num.of_Z a) with (Fin (inject_Z a)) at 1.
  change (Num.of_Z b) with (Fin (inject_Z b)) at 1. cbv iota beta.
  rewrite of_Z_leb. destruct (Z.leb_spec a b); f_equal; lia.
Qed.





















Lemma rasterOrder_vertices (a b c : Point2D) :
  let r := Triangle.rasterOrder (mkTriangle2D a b c) in
  r = (a, b, c) \/ r = (a, c, b) \/ r = (b, a, c) \/
  r = (b, c, a) \/ r = (c, a, b) \/ r = (c, b, a).
Proof.
  unfold Triangle.rasterOrder. cbn [tri_a tri_b tri_c].
  num_cases; tauto.
Qed.




End FillFacts.


(** * Further properties *)

(** ** Colours *)

Section ColorExtras.

Lemma ToInt32_range (z : Z) : - 2 ^ 31 <= ToInt32 z < 2 ^ 31.
Proof. unfold ToInt32. Z.div_mod_to_equations. lia. Qed.

Lemma ToUint32_ToInt32 (z : Z) : ToUint32 (ToInt32 z) = ToUint32 z.
Proof. unfold ToUint32, ToInt32. Z.div_mod_to_equations. lia. Qed.

Lemma band_byte (x : Z) : band x 255 = ToInt32 x mod 2 ^ 8.
Proof.
  unfold band. change (ToInt32 255) with (Z.ones 8). apply Z.land_ones. lia.
Qed.

Lemma band_byte_range (x : Z) : 0 <= band x 255 <= 255.
Proof. rewrite band_byte. Z.div_mod_to_equations. lia. Qed.

Lemma new_channels (a r g b : Z) (caching : bool) :
  0 <= a <= 255 -> 0 <= r <= 255 -> 0 <= g <= 255 -> 0 <= b <= 255 ->
  Color.new a r g b caching = mkColor4 a r g b None caching.
Proof.
  intros. unfold Color.new. rewrite !clamp_id by assumption. reflexivity.
Qed.

Lemma ToUint32_pack4 (b3 b2 b1 b0 : Z) :
  0 <= b3 <= 255 -> 0 <= b2 <= 255 -> 0 <= b1 <= 255 -> 0 <= b0 <= 255 ->
  ToUint32 (pack4 b3 b2 b1 b0) = b3 * 2 ^ 24 + b2 * 2 ^ 16 + b1 * 2 ^ 8 + b0.
Proof.
  intros. unfold ToUint32, pack4.
  destruct (Z.ltb_spec b3 128); Z.div_mod_to_equations; lia.
Qed.

(** X1.  The cell a freshly constructed colour is stored as: alpha in the high
    byte, then blue, green, red for [toAABBGGRR]; alpha, red, green, blue for
    [toAARRGGBB]. *)
Theorem packed_byte_layout (a r g b : Z) (keep : bool) :
  0 <= a <= 255 -> 0 <= r <= 255 -> 0 <= g <= 255 -> 0 <= b <= 255 ->
  let c := Color.new a r g b keep in
  ToUint32 (fst (Color.toAABBGGRR c))
  = a * 2 ^ 24 + b * 2 ^ 16 + g * 2 ^ 8 + r /\
  ToUint32 (fst (Color.toAARRGGBB c))
  = a * 2 ^ 24 + r * 2 ^ 16 + g * 2 ^ 8 + b.
Proof.
  intros Ha Hr Hg Hb c. subst c. rewrite new_channels by assumption.
  unfold Color.toAABBGGRR, Color.toAARRGGBB.
  destruct keep; cbn [cache caching Color.set_cache fst];
    rewrite getAABBGGRR_pack4, getAARRGGBB_pack4 by assumption;
    cbn [alpha red green blue]; split; apply ToUint32_pack4; assumption.
Qed.

Lemma packed_byte_layout_witness :
  ToUint32 (fst (Color.toAABBGGRR (Color.new 255 17 34 51 true)))
  = 0xFF332211 /\
  ToUint32 (fst (Color.toAARRGGBB (Color.new 255 17 34 51 true)))
  = 0xFF112233.
Proof. apply (packed_byte_layout 255 17 34 51 true); lia. Defined.

(** X2.  Whatever integers the constructor is given, and whatever value
    [fromAABBGGRR] or [fromARRGGBB] ingests, the four channels of the
    resulting colour are bytes. *)
Theorem channels_stay_bytes (a r g b v : Z) (keep : bool) (c : Color4) :
  channels_in_range (Color.new a r g b keep) /\
  channels_in_range (Color.fromAABBGGRR c v) /\
  channels_in_range (Color.fromARRGGBB c v).
Proof.
  unfold channels_in_range, Color.new, Color.fromAABBGGRR, Color.fromARRGGBB,
    clamp.
  cbn [alpha red green blue].
  repeat split; try lia; apply band_byte_range.
Qed.


Lemma band_sar (v n : Z) :
  0 <= n <= 24 -> band (sar v n) 255 = (ToInt32 v / 2 ^ n) mod 2 ^ 8.
Proof.
  intros Hn. rewrite band_byte. unfold sar, ToUint32.
  rewrite (Z.mod_small n) by lia. rewrite (Z.mod_small n) by lia.
  rewrite Z.shiftr_div_pow2 by lia.
  pose proof (ToInt32_range v) as Hv.
  assert (0 < 2 ^ n) by (apply Z.pow_pos_nonneg; lia).
  rewrite (ToInt32_small (ToInt32 v / 2 ^ n))
    by (split; [apply Z.div_le_lower_bound | apply Z.div_lt_upper_bound];
        nia).
  reflexivity.
Qed.

Lemma bytes_of_int32 (u : Z) :
  - 2 ^ 31 <= u < 2 ^ 31 ->
  ((u / 2 ^ 24) mod 2 ^ 8) * 2 ^ 24 + ((u / 2 ^ 16) mod 2 ^ 8) * 2 ^ 16
  + ((u / 2 ^ 8) mod 2 ^ 8) * 2 ^ 8 + (u / 2 ^ 0) mod 2 ^ 8
  = u mod 2 ^ 32.
Proof. intros Hu. Z.div_mod_to_equations. lia. Qed.

(** X3.  Unpacking any value and packing the channels again gives the value
    back, as the 32-bit cell it is stored as; in each channel order. *)
Theorem repack_ingested_value (c : Color4) (v : Z) :
  ToUint32 (Color.getAABBGGRR (Color.fromAABBGGRR c v)) = ToUint32 v /\
  ToUint32 (Color.getAARRGGBB (Color.fromARRGGBB c v)) = ToUint32 v.
Proof.
  pose proof (ToInt32_range v) as Hv.
  pose proof (bytes_of_int32 (ToInt32 v) Hv) as Hsum.
  change (ToInt32 v mod 2 ^ 32) with (ToUint32 (ToInt32 v)) in Hsum.
  rewrite ToUint32_ToInt32 in Hsum.
  split.
  - rewrite getAABBGGRR_pack4
      by (unfold Color.fromAABBGGRR; cbn [alpha red green blue];
          apply band_byte_range).
    unfold Color.fromAABBGGRR. cbn [alpha red green blue].
    rewrite ToUint32_pack4 by apply band_byte_range.
    rewrite !band_sar by lia. exact Hsum.
  - rewrite getAARRGGBB_pack4
      by (unfold Color.fromARRGGBB; cbn [alpha red green blue];
          apply band_byte_range).
    unfold Color.fromARRGGBB. cbn [alpha red green blue].
    rewrite ToUint32_pack4 by apply band_byte_range.
    rewrite !band_sar by lia. exact Hsum.
Qed.

Lemma pack4_inj (b3 b2 b1 b0 d2 d0 : Z) :
  0 <= b2 <= 255 -> 0 <= b1 <= 255 -> 0 <= b0 <= 255 ->
  0 <= d2 <= 255 -> 0 <= d0 <= 255 ->
  pack4 b3 b2 b1 b0 = pack4 b3 d2 b1 d0 -> b2 = d2 /\ b0 = d0.
Proof. unfold pack4. destruct (b3 <? 128); intros; lia. Qed.

(** X4.  On a colour constructed with caching on, [toAARRGGBB] after
    [toAABBGGRR] answers the AABBGGRR value again, which is the AARRGGBB
    packing only when red and blue are equal.  With caching off each call
    answers its own packing. *)
Theorem cached_order_sticks (a r g b : Z) :
  0 <= a <= 255 -> 0 <= r <= 255 -> 0 <= g <= 255 -> 0 <= b <= 255 ->
  let c := Color.new a r g b true in
  let c' := snd (Color.toAABBGGRR c) in
  let plain := snd (Color.toAABBGGRR (Color.new a r g b false)) in
  fst (Color.toAARRGGBB c') = fst (Color.toAABBGGRR c) /\
  (fst (Color.toAARRGGBB c') = Color.getAARRGGBB c' <-> r = b) /\
  fst (Color.toAARRGGBB plain) = Color.getAARRGGBB plain.
Proof.
  intros Ha Hr Hg Hb c c' plain. subst c' plain c.
  rewrite !new_channels by assumption.
  unfold Color.toAABBGGRR, Color.toAARRGGBB.
  cbn [cache caching Color.set_cache fst snd].
  split; [reflexivity |]. split; [| reflexivity].
  rewrite getAABBGGRR_pack4, getAARRGGBB_pack4 by assumption.
  cbn [alpha red green blue Color.set_cache]. split.
  - intros E. apply pack4_inj in E; lia.
  - intros ->. reflexivity.
Qed.

Lemma cached_order_sticks_witness :
  fst (Color.toAARRGGBB (snd (Color.toAABBGGRR (Color.new 255 17 34 51 true))))
  = fst (Color.toAABBGGRR (Color.new 255 17 34 51 true)).
Proof.
  apply (proj1 (cached_order_sticks 255 17 34 51 ltac:(lia) ltac:(lia)
                  ltac:(lia) ltac:(lia))).
Defined.

End ColorExtras.

(** ** Pixels *)

Section PixelExtras.



(** The cells after an unclipped [setPixel] at an index inside the array. *)
Lemma setPixel_unclipped_store_cells (blitter : Blitter) (x y : Z)
    (color : Color4) (bb : Backbuffer) :
  0 <= y * width blitter + x < Z.of_nat (length (cells bb)) ->
  cells (setPixel blitter #x #y color false bb)
  = <[Z.to_nat (y * width blitter + x)
      := ToUint32 (fst (Color.toAABBGGRR color))]> (cells bb) /\
  length (cells (setPixel blitter #x #y color false bb)) = length (cells bb).
Proof.
  intros Hidx. rewrite setPixel_unclipped. unfold store. cbn [cells].
  rewrite of_Z_mul, of_Z_add, Uint32Array_set_Z.
  destruct (Z.leb_spec 0 (y * width blitter + x)); [| lia].
  destruct (Z.ltb_spec (y * width blitter + x) (Z.of_nat (length (cells bb))));
    [| lia].
  cbn [andb]. split; [reflexivity | apply length_insert].
Qed.




Lemma Uint32Array_get_Z (array : list Z) (i : Z) :
  Uint32Array_get array #i =
  if (0 <=? i) && (i <? Z.of_nat (length array))
  then array !! Z.to_nat i else None.
Proof.
  unfold Uint32Array_get, Num.of_Z. rewrite Qfloor_Z, Qeq_bool_refl.
  reflexivity.
Qed.

Lemma ToInt32_ToUint32 (z : Z) : ToInt32 (ToUint32 z) = ToInt32 z.
Proof. unfold ToUint32, ToInt32. Z.div_mod_to_equations. lia. Qed.

(** The colour read back from the cell a colour was stored as. *)
Lemma fromAABBGGRR_stored_cell (c : Color4) :
  channels_in_range c -> cache c = None ->
  let cell := ToUint32 (fst (Color.toAABBGGRR c)) in
  let c' := Color.fromAABBGGRR Color.default cell in
  alpha c' = alpha c /\ red c' = red c /\ green c' = green c /\
  blue c' = blue c /\ cache c' = Some cell.
Proof.
  intros (Ha & Hr & Hg & Hb) Hcache cell c'.
  assert (Hp : fst (Color.toAABBGGRR c)
               = pack4 (alpha c) (blue c) (green c) (red c)).
  { unfold Color.toAABBGGRR.
    destruct c as [a r g b ch [|]]; cbn [cache caching] in *; subst ch;
      cbn [cache Color.set_cache fst]; apply getAABBGGRR_pack4; assumption. }
  destruct (byte_of_pack4 (alpha c) (blue c) (green c) (red c) Ha Hb Hg Hr)
    as (E3 & E2 & E1 & E0).
  subst c' cell. unfold Color.fromAABBGGRR. cbn [alpha red green blue cache].
  unfold sar in *. rewrite !ToInt32_ToUint32. rewrite Hp.
  repeat split; assumption.
Qed.

(** X6.  On a buffer of width x height cells, a colour written with
    [setPixel] at a pixel of the buffer is read back by [getPixel] at that
    pixel with the same four channels (clipping off, and the colour with
    byte channels and an empty cache). *)
Theorem setPixel_getPixel (blitter : Blitter) (x y : Z) (color : Color4)
    (bb : Backbuffer) :
  0 <= x < width blitter -> 0 <= y < height blitter ->
  Z.of_nat (length (cells bb)) = width blitter * height blitter ->
  channels_in_range color -> cache color = None ->
  exists c,
    getPixel blitter #x #y false (setPixel blitter #x #y color false bb)
    = ReadColor c /\
    alpha c = alpha color /\ red c = red color /\
    green c = green color /\ blue c = blue color.
Proof.
  intros Hx Hy Hlen Hch Hcache.
  assert (Hidx : 0 <= y * width blitter + x < Z.of_nat (length (cells bb)))
    by nia.
  unfold getPixel. cbn [andb].
  rewrite of_Z_mul, of_Z_add, Uint32Array_get_Z.
  destruct (setPixel_unclipped_store_cells blitter x y color bb Hidx) as [Hc Hl].
  rewrite Hl.
  destruct (Z.leb_spec 0 (y * width blitter + x)); [| lia].
  destruct (Z.ltb_spec (y * width blitter + x) (Z.of_nat (length (cells bb))));
    [| lia].
  cbn [andb]. rewrite Hc.
  rewrite list_lookup_insert_eq by lia.
  eexists. split; [reflexivity |].
  destruct (fromAABBGGRR_stored_cell color Hch Hcache)
    as (E1 & E2 & E3 & E4 & _).
  repeat split; assumption.
Qed.


Lemma setPixel_getPixel_witness :
  exists c,
    getPixel (Blit.create 4 4) #1 #2 false
      (setPixel (Blit.create 4 4) #1 #2 (Color.new 255 17 34 51 true) false
                (mkBackbuffer (repeat 0 16) []))
    = ReadColor c /\
    alpha c = 255 /\ red c = 17 /\ green c = 34 /\ blue c = 51.
Proof.
  apply (setPixel_getPixel (Blit.create 4 4) 1 2
           (Color.new 255 17 34 51 true) (mkBackbuffer (repeat 0 16) []));
    try (vm_compute; split; [discriminate | reflexivity]);
    try reflexivity.
  vm_compute. repeat split; discriminate.
Defined.

Lemma create_clipping (w h : Z) :
  0 <= w < 2 ^ 15 -> 0 <= h < 2 ^ 15 ->
  clipping (Blit.create w h) = mkClipping 0 0 w h.
Proof.
  intros Hw Hh. unfold Blit.create, Clip.new, Clip.ToInt16, Num.of_Z.
  cbn [clipping inject_Z Qnum]. rewrite !Qfloor_Z.
  destruct (Z.leb_spec 0 w); [| lia]. destruct (Z.leb_spec 0 h); [| lia].
  cbn [Z.leb]. f_equal; Z.div_mod_to_equations; lia.
Qed.

(** An index computed from a coordinate that is not finite is not finite,
    and a store at it is dropped. *)
Lemma index_not_finite (array : list Z) (x y w : number) (v : Z) :
  (match x with Fin _ => False | _ => True end) \/
  (match y with Fin _ => False | _ => True end) ->
  Uint32Array_set array (y * w + x)%num v = array.
Proof.
  intros [H | H].
  - destruct x; try contradiction; destruct (y * w)%num; reflexivity.
  - destruct y; try contradiction; destruct w as [| | | q], x;
      cbn; try reflexivity;
      destruct (Z.sgn (Qnum q)); reflexivity.
Qed.

(** X7.  On a blitter made by [create] with sides below 32768, a clipped
    [Blitter.setPixel] changes no cell but the one of the pixel it is asked
    to write, for any coordinates: either the cells are as they were, or the
    floored coordinates are a pixel (i, j) of the canvas and the colour went
    to the cell j * width + i. *)
Theorem clipped_setPixel_own_cell (w h : Z) (x y : number) (color : Color4)
    (bb : Backbuffer) :
  0 <= w < 2 ^ 15 -> 0 <= h < 2 ^ 15 ->
  let bb' := Blit.setPixel (Blit.create w h) x y color true bb in
  cells bb' = cells bb \/
  exists i j : Z,
    Num.floor x = Num.of_Z i /\ Num.floor y = Num.of_Z j /\
    0 <= i < w /\ 0 <= j < h /\
    cells bb' = <[Z.to_nat (j * w + i)
                  := ToUint32 (fst (Color.toAABBGGRR color))]> (cells bb).
Proof.
  intros Hw Hh bb'. subst bb'. unfold Blit.setPixel, setPixel.
  rewrite create_clipping by assumption. cbn [minX minY maxX maxY andb].
  destruct (_ || _ || _ || _) eqn:Eclip; [left; reflexivity |].
  cbn [store cells].
  destruct x as [| | | qx];
    try (left; apply index_not_finite; left; exact I).
  destruct y as [| | | qy];
    try (left; apply index_not_finite; right; exact I).
  cbn [Num.floor] in *. unfold Num.geb in Eclip.
  rewrite !of_Z_ltb, !of_Z_leb in Eclip.
  apply orb_false_iff in Eclip. destruct Eclip as [Eclip E4].
  apply orb_false_iff in Eclip. destruct Eclip as [Eclip E3].
  apply orb_false_iff in Eclip. destruct Eclip as [E1 E2].
  apply Z.ltb_ge in E1, E3. apply Z.leb_gt in E2, E4.
  cbn [width Blit.create].
  rewrite of_Z_mul, of_Z_add, Uint32Array_set_Z.
  destruct (_ && _); [right | left; reflexivity].
  exists (Qfloor qx), (Qfloor qy). repeat split; try assumption.
Qed.


Lemma clipped_setPixel_own_cell_witness :
  let bb := mkBackbuffer (repeat 0 16) [] in
  let bb' := Blit.setPixel (Blit.create 4 4) #(-1) #1 Color.static_white true
                           bb in
  cells bb' = cells bb \/
  exists i j : Z,
    Num.floor #(-1) = Num.of_Z i /\ Num.floor #1 = Num.of_Z j /\
    0 <= i < 4 /\ 0 <= j < 4 /\
    cells bb' = <[Z.to_nat (j * 4 + i)
                  := ToUint32 (fst (Color.toAABBGGRR Color.static_white))]>
                  (cells bb).
Proof.
  apply (clipped_setPixel_own_cell 4 4 #(-1) #1 Color.static_white
           (mkBackbuffer (repeat 0 16) [])); lia.
Defined.




Lemma lookup_map_const (v : Z) (l : list Z) (n : nat) (cell : Z) :
  map (fun _ => v) l !! n = Some cell -> cell = v.
Proof.
  revert n. induction l as [| a l IH]; intros [| n]; cbn; try discriminate.
  - intros [= <-]. reflexivity.
  - apply IH.
Qed.

Lemma lookup_map_const_lt (v : Z) (l : list Z) (n : nat) :
  (n < length l)%nat -> map (fun _ => v) l !! n = Some v.
Proof.
  revert n. induction l as [| a l IH]; intros [| n]; cbn; try lia.
  - reflexivity.
  - intros H. apply IH. lia.
Qed.

(** X9.  [clear] keeps the length of the buffer and leaves the packed colour
    in every cell; on a buffer of width x height cells, [getPixel] then reads
    the channels of that colour at every pixel of the buffer. *)
Theorem clear_then_getPixel (blitter : Blitter) (color : Color4)
    (bb : Backbuffer) :
  channels_in_range color -> cache color = None ->
  let bb' := Blitter_clear color bb in
  length (cells bb') = length (cells bb) /\
  (forall (n : nat) (cell : Z),
     cells bb' !! n = Some cell ->
     cell = ToUint32 (fst (Color.toAABBGGRR color))) /\
  (forall x y : Z,
     0 <= x < width blitter -> 0 <= y < height blitter ->
     Z.of_nat (length (cells bb)) = width blitter * height blitter ->
     exists c,
       getPixel blitter #x #y false bb' = ReadColor c /\
       alpha c = alpha color /\ red c = red color /\
       green c = green color /\ blue c = blue color).
Proof.
  intros Hch Hcache bb'. subst bb'. unfold Blitter_clear, Blitter_fill.
  cbn [cells]. split; [apply length_map |]. split.
  - intros n cell. apply lookup_map_const.
  - intros x y Hx Hy Hlen.
    assert (Hidx : 0 <= y * width blitter + x < Z.of_nat (length (cells bb)))
      by nia.
    unfold getPixel. cbn [andb cells].
    rewrite of_Z_mul, of_Z_add, Uint32Array_get_Z, length_map.
    destruct (Z.leb_spec 0 (y * width blitter + x)); [| lia].
    destruct (Z.ltb_spec (y * width blitter + x)
                         (Z.of_nat (length (cells bb)))); [| lia].
    cbn [andb]. rewrite lookup_map_const_lt by lia.
    eexists. split; [reflexivity |].
    destruct (fromAABBGGRR_stored_cell color Hch Hcache)
      as (E1 & E2 & E3 & E4 & _).
    repeat split; assumption.
Qed.

Lemma clear_then_getPixel_witness :
  length (cells (Blitter_clear (Color.new 255 17 34 51 true)
                               (mkBackbuffer (repeat 0 16) [])))
  = 16%nat.
Proof.
  apply (proj1 (clear_then_getPixel (Blit.create 4 4)
                  (Color.new 255 17 34 51 true)
                  (mkBackbuffer (repeat 0 16) [])
                  ltac:(vm_compute; repeat split; discriminate)
                  ltac:(reflexivity))).
Defined.

End PixelExtras.

(** ** The clipper *)

Section ClipperExtras.

Local Open Scope Q_scope.






Lemma testEdge_NaN_delta (distance : number) (i : Interval) :
  testEdge NaN distance i = (true, i).
Proof.
  unfold testEdge. cbn [Num.eqb Num.ltb].
  destruct distance; cbn [Num.div Num.ltb Num.gtb]; reflexivity.
Qed.

Lemma sub_NaN (a b : number) : a = NaN \/ b = NaN -> (b - a)%num = NaN.
Proof. intros [-> | ->]; destruct a || destruct b; reflexivity. Qed.

(** X12.  The clipper does not reject NaN: a segment with a NaN among its x
    coordinates and a NaN among its y coordinates passes the four edge tests
    and comes back with NaN coordinates only.  A clipped [drawLineDDA] then
    returns without a store, and a clipped [drawLineBresenham] never
    returns. *)
Theorem NaN_passes_the_clipper (a b : Point2D) (blitter : Blitter)
    (color : Color4) (bb : Backbuffer) (fuel : nat) :
  px a = NaN \/ px b = NaN -> py a = NaN \/ py b = NaN ->
  clipLineLiangBarsky a b (clipping blitter)
  = Some (mkPoint2D NaN NaN, mkPoint2D NaN NaN) /\
  drawLineDDA (S fuel) blitter a b color true bb = Some bb /\
  drawLineBresenham fuel blitter a b color true bb = None.
Proof.
  intros Hx Hy.
  assert (Hclip : clipLineLiangBarsky a b (clipping blitter)
                  = Some (mkPoint2D NaN NaN, mkPoint2D NaN NaN)).
  { unfold clipLineLiangBarsky.
    rewrite (sub_NaN (px a) (px b) Hx), (sub_NaN (py a) (py b) Hy).
    cbn [Num.neg]. rewrite !testEdge_NaN_delta.
    unfold and_then. cbn [fst snd tMin tMax].
    rewrite !testEdge_NaN_delta. cbn [fst snd tMin tMax].
    destruct (px a), (py a); reflexivity. }
  split; [exact Hclip |]. split.
  - unfold drawLineDDA. rewrite Hclip. reflexivity.
  - unfold drawLineBresenham. rewrite Hclip. cbn [px py Num.floor].
    apply bresenham_loop_NaN.
Qed.

Lemma NaN_passes_the_clipper_witness :
  drawLineBresenham 1000 (Blit.create 16 16) (mkPoint2D NaN NaN) (Pt 3 4)
                    Color.static_black true (mkBackbuffer (repeat 0%Z 256) [])
  = None.
Proof.
  apply (NaN_passes_the_clipper (mkPoint2D NaN NaN) (Pt 3 4)
           (Blit.create 16 16) Color.static_black
           (mkBackbuffer (repeat 0%Z 256) []) 1000);
    left; reflexivity.
Defined.

End ClipperExtras.

(** ** Lines *)

Section LineExtras.














End LineExtras.

(** ** Raster order *)

Section TriangleExtras.

Local Open Scope Q_scope.

(** A triangle already in raster order is returned as it is. *)
Lemma rasterOrder_fixed (ax ay bx by_ cx cy : Q) :
  ay <= by_ -> by_ <= cy ->
  (ay == by_ -> ax <= bx) -> (by_ == cy -> bx <= cx) ->
  Triangle.rasterOrder (mkTriangle2D (Pt ax ay) (Pt bx by_) (Pt cx cy))
  = (Pt ax ay, Pt bx by_, Pt cx cy).
Proof.
  intros H1 H2 H3 H4.
  unfold Triangle.rasterOrder, Pt. cbn [tri_a tri_b tri_c px py].
  num_cases; num_facts; try reflexivity; exfalso;
    try (specialize (H3 ltac:(lra))); try (specialize (H4 ltac:(lra))); lra.
Qed.

(** X16.  For a triangle with finite coordinates [rasterOrder] returns the
    three vertices rearranged, in ascending y; when the last two share their
    y they are in ascending x, and so are the first two when they share
    their y and the third lies strictly lower. *)
Theorem rasterOrder_sorts_vertices (ax ay bx by_ cx cy : Q) :
  let '(v0, v1, v2) :=
    Triangle.rasterOrder (mkTriangle2D (Pt ax ay) (Pt bx by_) (Pt cx cy)) in
  Permutation [v0; v1; v2] [Pt ax ay; Pt bx by_; Pt cx cy] /\
  Num.le (py v0) (py v1) /\ Num.le (py v1) (py v2) /\
  ((py v1 === py v2)%num = true -> Num.le (px v1) (px v2)) /\
  ((py v0 === py v1)%num = true -> Num.lt (py v1) (py v2) ->
   Num.le (px v0) (px v1)).
Proof.
  pose proof (rasterOrder_vertices (Pt ax ay) (Pt bx by_) (Pt cx cy)) as Hv.
  pose proof (rasterOrder_y_sorted ax ay bx by_ cx cy) as Hs.
  pose proof (rasterOrder_flat_pairs ax ay bx by_ cx cy) as Hf.
  cbv zeta in Hv.
  destruct (Triangle.rasterOrder _) as [[v0 v1] v2].
  split; [| tauto].
  destruct Hv as [E | [E | [E | [E | [E | E]]]]]; injection E as -> -> ->.
  - reflexivity.
  - apply perm_skip, perm_swap.
  - apply perm_swap.
  - eapply perm_trans; [apply perm_skip, perm_swap | apply perm_swap].
  - eapply perm_trans; [apply perm_swap | apply perm_skip, perm_swap].
  - eapply perm_trans; [apply perm_swap |].
    eapply perm_trans; [apply perm_skip, perm_swap | apply perm_swap].
Qed.

(** X17.  On a triangle with finite coordinates whose vertices do not all
    share one y, [rasterOrder] is idempotent: its result is returned
    unchanged when put in raster order again. *)
Theorem rasterOrder_idempotent (ax ay bx by_ cx cy : Q) :
  ~ (ay == by_ /\ by_ == cy) ->
  let '(v0, v1, v2) :=
    Triangle.rasterOrder (mkTriangle2D (Pt ax ay) (Pt bx by_) (Pt cx cy)) in
  Triangle.rasterOrder (mkTriangle2D v0 v1 v2) = (v0, v1, v2).
Proof.
  intros Hlevel.
  pose proof (rasterOrder_vertices (Pt ax ay) (Pt bx by_) (Pt cx cy)) as Hv.
  pose proof (rasterOrder_y_sorted ax ay bx by_ cx cy) as Hs.
  pose proof (rasterOrder_flat_pairs ax ay bx by_ cx cy) as Hf.
  cbv zeta in Hv.
  destruct (Triangle.rasterOrder _) as [[v0 v1] v2].
  destruct Hs as [Hs1 Hs2]. destruct Hf as [Hf1 Hf2].
  destruct Hv as [E | [E | [E | [E | [E | E]]]]]; injection E as -> -> ->;
    unfold Pt in *; cbn [px py Num.le Num.lt] in *;
    (apply rasterOrder_fixed;
     [ exact Hs1 | exact Hs2
     | intros He; apply Hf2; [apply eqb_Fin; exact He | lra]
     | intros He; apply Hf1; apply eqb_Fin; exact He ]).
Qed.

Lemma rasterOrder_idempotent_witness :
  let '(v0, v1, v2) :=
    Triangle.rasterOrder (mkTriangle2D (Pt 4 3) (Pt 1 3) (Pt 2 0)) in
  Triangle.rasterOrder (mkTriangle2D v0 v1 v2) = (v0, v1, v2).
Proof.
  apply (rasterOrder_idempotent 4 3 1 3 2 0).
  intros [_ H]. vm_compute in H. discriminate.
Defined.

End TriangleExtras.

(** ** The scanline fill *)

Section FillExtras.

(** The store of the fill at pixel (i, j), with the running position at
    [j * width], is the store of [Blitter.setPixel] there. *)
Lemma store_setPixel (blitter : Blitter) (color : Color4) (i j : Z)
    (bb : Backbuffer) :
  store bb #i #j (#(j * width blitter) + #i)%num (fst (Color.toAABBGGRR color))
  = Blit.setPixel blitter #i #j color false bb.
Proof.
  unfold Blit.setPixel, setPixel. cbn [andb].
  rewrite !of_Z_floor, of_Z_mul. reflexivity.
Qed.

Lemma plot_all_app (blitter : Blitter) (color : Color4)
    (l1 l2 : list (Z * Z)) (bb : Backbuffer) :
  plot_all blitter color (l1 ++ l2) bb
  = plot_all blitter color l2 (plot_all blitter color l1 bb).
Proof. unfold plot_all. apply fold_left_app. Qed.

Lemma span_loop_plot (blitter : Blitter) (color : Color4) (j : Z) :
  forall (n fuel : nat) (x xEnd : Z) (bb : Backbuffer),
    Z.of_nat n = Z.max 0 (xEnd - x) -> (n < fuel)%nat ->
    exists pixels,
      span_loop fuel #x #xEnd #j #(j * width blitter)
                (fst (Color.toAABBGGRR color)) bb
      = Some (plot_all blitter color pixels bb) /\
      Forall (fun p => x <= fst p < xEnd /\ snd p = j) pixels.
Proof.
  induction n as [| n IH]; intros fuel x xEnd bb Hn Hfuel;
    (destruct fuel as [| fuel]; [lia |]); cbn [span_loop];
    rewrite of_Z_ltb.
  - destruct (Z.ltb_spec x xEnd); [lia |].
    exists []. split; [reflexivity | constructor].
  - destruct (Z.ltb_spec x xEnd); [| lia].
    rewrite of_Z_add, store_setPixel.
    destruct (IH fuel (x + 1) xEnd (Blit.setPixel blitter #x #j color false bb))
      as (pixels & Hr & Hall); try lia.
    exists ((x, j) :: pixels). split; [exact Hr |].
    constructor; [cbn [fst snd]; lia |].
    eapply Forall_impl; [exact Hall |]. intros [u v]. cbn [fst snd]. lia.
Qed.

Lemma scanline_loop_plot (blitter : Blitter) (color : Color4) (sl sr : Q) :
  forall (n fuel : nat) (y yEnd : Z) (xl xr : Q) (bb : Backbuffer),
    Z.of_nat n = Z.max 0 (yEnd - y) ->
    (n + Z.to_nat (width blitter) < fuel)%nat ->
    exists pixels,
      scanline_loop fuel #(width blitter) #y #yEnd #(y * width blitter)
                    (Fin xl) (Fin xr) (Fin sl) (Fin sr)
                    (fst (Color.toAABBGGRR color)) bb
      = Some (plot_all blitter color pixels bb) /\
      Forall (fun p => 0 <= fst p < width blitter /\ y <= snd p < yEnd) pixels.
Proof.
  induction n as [| n IH]; intros fuel y yEnd xl xr bb Hn Hfuel;
    (destruct fuel as [| fuel]; [lia |]); cbn [scanline_loop];
    rewrite of_Z_ltb.
  - destruct (Z.ltb_spec y yEnd); [lia |].
    exists []. split; [reflexivity | constructor].
  - destruct (Z.ltb_spec y yEnd); [| lia].
    cbn [Num.ceil]. rewrite of_Z_max, of_Z_min.
    destruct (span_loop_plot blitter color y
                (Z.to_nat (Z.max 0 (Z.min (width blitter) (Qceiling xr)
                                    - Z.max 0 (Qceiling xl))))
                (S fuel) (Z.max 0 (Qceiling xl))
                (Z.min (width blitter) (Qceiling xr)) bb)
      as (row & Hrow & Hall1); try lia.
    rewrite Hrow, !of_Z_add. cbn [Num.add].
    replace (y * width blitter + width blitter) with ((y + 1) * width blitter)
      by ring.
    destruct (IH fuel (y + 1) yEnd (Qred (xl + sl)) (Qred (xr + sr))
                (plot_all blitter color row bb))
      as (rest & Hrest & Hall2); try lia.
    exists (row ++ rest). split.
    + rewrite Hrest, plot_all_app. reflexivity.
    + apply Forall_app. split.
      * eapply Forall_impl; [exact Hall1 |]. intros [u v]. cbn [fst snd]. lia.
      * eapply Forall_impl; [exact Hall2 |]. intros [u v]. cbn [fst snd]. lia.
Qed.

Lemma rasterScanlines_plot (blitter : Blitter) (color : Color4) (yS yE : Z)
    (xl xr sl sr : Q) (bb : Backbuffer) (fuel : nat) :
  (Z.to_nat (height blitter) + Z.to_nat (width blitter) < fuel)%nat ->
  exists pixels,
    rasterScanlines fuel #(width blitter) #(height blitter) #yS #yE
                    (Fin xl) (Fin xr) (Fin sl) (Fin sr)
                    (fst (Color.toAABBGGRR color)) bb
    = Some (plot_all blitter color pixels bb) /\
    Forall (fun p => 0 <= fst p < width blitter /\
                     0 <= snd p < height blitter /\ yS <= snd p < yE) pixels.
Proof.
  intros Hfuel. unfold rasterScanlines. rewrite of_Z_max, of_Z_min, of_Z_mul.
  destruct (scanline_loop_plot blitter color sl sr
              (Z.to_nat (Z.max 0 (Z.min (height blitter) yE - Z.max 0 yS)))
              fuel (Z.max 0 yS) (Z.min (height blitter) yE) xl xr bb)
    as (pixels & Hr & Hall); try lia.
  exists pixels. split; [exact Hr |].
  eapply Forall_impl; [exact Hall |]. intros [u v]. cbn [fst snd]. lia.
Qed.

Ltac flat_setup :=
  unfold Pt; cbn [px py]; unfold Num.sub; cbn [Num.neg Num.add];
  change (Num.of_Z 0) with (Fin 0).

Lemma fillFlatBottom_plot (blitter : Blitter) (color : Color4)
    (x0 y0 x1 y1 x2 y2 : Q) (bb : Backbuffer) (fuel : nat) :
  (Z.to_nat (height blitter) + Z.to_nat (width blitter) < fuel)%nat ->
  exists pixels,
    fillFlatBottom fuel #(width blitter) #(height blitter)
                   (Pt x0 y0) (Pt x1 y1) (Pt x2 y2)
                   (fst (Color.toAABBGGRR color)) bb
    = Some (plot_all blitter color pixels bb) /\
    Forall (fun p => 0 <= fst p < width blitter /\
                     0 <= snd p < height blitter /\
                     Qceiling y0 <= snd p < Qceiling y1) pixels.
Proof.
  intros Hfuel. unfold fillFlatBottom. flat_setup.
  set (dyL := Qred (y1 + Qred (- y0))). set (dyR := Qred (y2 + Qred (- y0))).
  destruct (Fin dyL === Fin 0)%num eqn:EL;
    [exists []; split; [reflexivity | constructor] |].
  destruct (Fin dyR === Fin 0)%num eqn:ER;
    [exists []; split; [reflexivity | constructor] |].
  apply eqb_Fin_false in EL, ER. cbn [orb].
  destruct (div_Fin (Qred (x1 + Qred (- x0))) dyL EL) as (sl & -> & _).
  destruct (div_Fin (Qred (x2 + Qred (- x0))) dyR ER) as (sr & -> & _).
  cbn [Num.ceil]. apply rasterScanlines_plot. assumption.
Qed.

Lemma fillFlatTop_plot (blitter : Blitter) (color : Color4)
    (x0 y0 x1 y1 x2 y2 : Q) (bb : Backbuffer) (fuel : nat) :
  (Z.to_nat (height blitter) + Z.to_nat (width blitter) < fuel)%nat ->
  exists pixels,
    fillFlatTop fuel #(width blitter) #(height blitter)
                (Pt x0 y0) (Pt x1 y1) (Pt x2 y2)
                (fst (Color.toAABBGGRR color)) bb
    = Some (plot_all blitter color pixels bb) /\
    Forall (fun p => 0 <= fst p < width blitter /\
                     0 <= snd p < height blitter /\
                     Qceiling y0 <= snd p < Qceiling y2) pixels.
Proof.
  intros Hfuel. unfold fillFlatTop. flat_setup.
  set (dyL := Qred (y2 + Qred (- y0))). set (dyR := Qred (y2 + Qred (- y1))).
  destruct (Fin dyL === Fin 0)%num eqn:EL;
    [exists []; split; [reflexivity | constructor] |].
  destruct (Fin dyR === Fin 0)%num eqn:ER;
    [exists []; split; [reflexivity | constructor] |].
  apply eqb_Fin_false in EL, ER. cbn [orb].
  destruct (div_Fin (Qred (x2 + Qred (- x0))) dyL EL) as (sl & -> & _).
  destruct (div_Fin (Qred (x2 + Qred (- x1))) dyR ER) as (sr & -> & _).
  cbn [Num.ceil]. apply rasterScanlines_plot. assumption.
Qed.

(** The fill of a triangle whose raster order is known: the stores of
    [Blitter.setPixel] at pixels of the buffer, on the rows from the ceiling
    of the least y up to, not including, the ceiling of the greatest. *)
Lemma fill_sorted_plot (blitter : Blitter) (triangle : Triangle2D)
    (x0 y0 x1 y1 x2 y2 : Q) (color : Color4) (bb : Backbuffer) (fuel : nat) :
  Triangle.rasterOrder triangle = (Pt x0 y0, Pt x1 y1, Pt x2 y2) ->
  (y0 <= y1)%Q -> (y1 <= y2)%Q ->
  (Z.to_nat (height blitter) + Z.to_nat (width blitter) < fuel)%nat ->
  exists pixels,
    fillFlatScanline fuel blitter triangle color bb
    = Some (plot_all blitter color pixels bb) /\
    Forall (fun p => 0 <= fst p < width blitter /\
                     0 <= snd p < height blitter /\
                     Qceiling y0 <= snd p < Qceiling y2) pixels.
Proof.
  intros Hord H01 H12 Hfuel.
  pose proof (Qceiling_resp_le _ _ H01) as C01.
  pose proof (Qceiling_resp_le _ _ H12) as C12.
  unfold fillFlatScanline. rewrite Hord. cbn [px py Pt].
  destruct (Fin y1 === Fin y2)%num eqn:E12.
  { destruct (fillFlatBottom_plot blitter color x0 y0 x1 y1 x2 y2 bb fuel
                Hfuel) as (pixels & Hr & Hall).
    exists pixels. split; [exact Hr |].
    eapply Forall_impl; [exact Hall |]. intros [u v]. cbn [fst snd]. lia. }
  destruct (Fin y0 === Fin y1)%num eqn:E01.
  { apply fillFlatTop_plot. assumption. }
  apply eqb_Fin_false in E12, E01.
  assert (L01 : (y0 < y1)%Q) by (apply Qle_lteq in H01; tauto).
  assert (L12 : (y1 < y2)%Q) by (apply Qle_lteq in H12; tauto).
  unfold Num.sub. cbn [Num.neg Num.add].
  destruct (div_Fin (Qred (y1 + Qred (- y0))) (Qred (y2 + Qred (- y0))))
    as (t & -> & _).
  { rewrite !Qred_correct. lra. }
  cbn [Num.mul Num.add].
  set (x3 := Qred (x0 + Qred (t * Qred (x2 + Qred (- x0))))).
  change (mkPoint2D (Fin x1) (Fin y1)) with (Pt x1 y1).
  change (mkPoint2D (Fin x3) (Fin y1)) with (Pt x3 y1).
  change (mkPoint2D (Fin x0) (Fin y0)) with (Pt x0 y0).
  change (mkPoint2D (Fin x2) (Fin y2)) with (Pt x2 y2).
  destruct (Fin x1 <? Fin x3)%num.
  - destruct (fillFlatBottom_plot blitter color x0 y0 x1 y1 x3 y1 bb fuel
                Hfuel) as (top & Htop & Hall1).
    rewrite Htop.
    destruct (fillFlatTop_plot blitter color x1 y1 x3 y1 x2 y2
                (plot_all blitter color top bb) fuel Hfuel)
      as (bottom & Hbottom & Hall2).
    exists (top ++ bottom). split.
    + rewrite Hbottom, plot_all_app. reflexivity.
    + apply Forall_app. split.
      * eapply Forall_impl; [exact Hall1 |]. intros [u v]. cbn [fst snd]. lia.
      * eapply Forall_impl; [exact Hall2 |]. intros [u v]. cbn [fst snd]. lia.
  - destruct (fillFlatBottom_plot blitter color x0 y0 x3 y1 x1 y1 bb fuel
                Hfuel) as (top & Htop & Hall1).
    rewrite Htop.
    destruct (fillFlatTop_plot blitter color x3 y1 x1 y1 x2 y2
                (plot_all blitter color top bb) fuel Hfuel)
      as (bottom & Hbottom & Hall2).
    exists (top ++ bottom). split.
    + rewrite Hbottom, plot_all_app. reflexivity.
    + apply Forall_app. split.
      * eapply Forall_impl; [exact Hall1 |]. intros [u v]. cbn [fst snd]. lia.
      * eapply Forall_impl; [exact Hall2 |]. intros [u v]. cbn [fst snd]. lia.
Qed.

(** X18.  For a triangle with finite vertices [fillFlatScanline] returns,
    and what it leaves is what [Blitter.setPixel] (clipping off) leaves when
    called with the same colour at the pixels the fill stores to, in the
    same order: the running [position] of the fill is the row offset
    [y * width] of [setPixel].  Those pixels are in the buffer, on the rows
    from the least ceiling of a vertex's y up to, not including, the
    greatest; a triangle whose three y have one ceiling is not drawn. *)
Theorem fill_is_setPixel_on_rows (blitter : Blitter)
    (ax ay bx by_ cx cy : Q) (color : Color4) (bb : Backbuffer) (k : nat) :
  let w := width blitter in
  let h := height blitter in
  let triangle := mkTriangle2D (Pt ax ay) (Pt bx by_) (Pt cx cy) in
  let fuel := (S (Z.to_nat h + Z.to_nat w) + k)%nat in
  let top := Z.min (Qceiling ay) (Z.min (Qceiling by_) (Qceiling cy)) in
  let bottom := Z.max (Qceiling ay) (Z.max (Qceiling by_) (Qceiling cy)) in
  (exists pixels,
     fillFlatScanline fuel blitter triangle color bb
     = Some (plot_all blitter color pixels bb) /\
     Forall (fun p => 0 <= fst p < w /\ 0 <= snd p < h /\
                      top <= snd p < bottom) pixels) /\
  (top = bottom ->
   fillFlatScanline fuel blitter triangle color bb = Some bb).
Proof.
  intros w h triangle fuel top bottom.
  assert (Hmain : exists pixels,
     fillFlatScanline fuel blitter triangle color bb
     = Some (plot_all blitter color pixels bb) /\
     Forall (fun p => 0 <= fst p < w /\ 0 <= snd p < h /\
                      top <= snd p < bottom) pixels).
  { pose proof (rasterOrder_vertices (Pt ax ay) (Pt bx by_) (Pt cx cy)) as Hv.
    pose proof (rasterOrder_y_sorted ax ay bx by_ cx cy) as Hs.
    fold triangle in Hv, Hs. cbv zeta in Hv.
    assert (Hfuel : (Z.to_nat h + Z.to_nat w < fuel)%nat)
      by (subst fuel; lia).
    destruct Hv as [E | [E | [E | [E | [E | E]]]]];
      rewrite E in Hs; cbn [px py Pt Num.le] in Hs; destruct Hs as [H01 H12];
      pose proof (Qceiling_resp_le _ _ H01) as C01;
      pose proof (Qceiling_resp_le _ _ H12) as C12;
      destruct (fill_sorted_plot blitter triangle _ _ _ _ _ _ color bb fuel
                  E H01 H12 Hfuel) as (pixels & Hr & Hall);
      exists pixels; (split; [exact Hr |]);
      (eapply Forall_impl; [exact Hall |]);
      intros [u v]; cbn [fst snd]; subst w h top bottom; lia. }
  split; [exact Hmain |].
  intros Hflat. destruct Hmain as (pixels & Hr & Hall).
  destruct pixels as [| p pixels]; [exact Hr |].
  apply Forall_cons in Hall. destruct Hall as [Hp _]. lia.
Qed.

(** A triangle between two rows of pixels is not drawn. *)
Lemma fill_is_setPixel_on_rows_witness :
  fillFlatScanline (S (Z.to_nat 10 + Z.to_nat 10) + 0) (Blit.create 10 10)
    (mkTriangle2D (Pt 1 (Qmake 21 10)) (Pt 8 (Qmake 29 10)) (Pt 4 (Qmake 25 10)))
    Color.static_red (mkBackbuffer (repeat 0 100) [])
  = Some (mkBackbuffer (repeat 0 100) []).
Proof.
  apply (fill_is_setPixel_on_rows (Blit.create 10 10)
           1 (Qmake 21 10) 8 (Qmake 29 10) 4 (Qmake 25 10)).
  reflexivity.
Defined.

End FillExtras.

(** ** Interpolation *)

Section HelperExtras.

(** X19.  [lerp] returns the start at t = 0 and the end at t = 1 when both
    are finite; with an infinite end at t = 0, or an infinite start at
    t = 1, the product by zero makes the result NaN. *)
Theorem lerp_endpoints (s e : Q) :
  (lerp (Fin s) (Fin e) (Num.of_Z 0) === Fin s)%num = true /\
  (lerp (Fin s) (Fin e) (Num.of_Z 1) === Fin e)%num = true /\
  lerp (Fin s) PosInf (Num.of_Z 0) = NaN /\
  lerp (Fin s) NegInf (Num.of_Z 0) = NaN /\
  lerp PosInf (Fin e) (Num.of_Z 1) = NaN /\
  lerp NegInf (Fin e) (Num.of_Z 1) = NaN.
Proof.
  split; [| split; [| repeat split]].
  - unfold lerp, Num.of_Z, Num.sub. cbn [Num.neg Num.add Num.mul].
    apply eqb_Fin. rewrite !Qred_correct.
    change (inject_Z 1) with 1%Q. change (inject_Z 0) with 0%Q. ring.
  - unfold lerp, Num.of_Z, Num.sub. cbn [Num.neg Num.add Num.mul].
    apply eqb_Fin. rewrite !Qred_correct.
    change (inject_Z 1) with 1%Q. ring.
Qed.

End HelperExtras.


